(** * SliceMaster 640: the slicing engine of [services/imageProcessor]

    A shallow embedding of [resizeImageTo640], [processSlices], [createZip]
    and the handlers of [App], and the properties of the geometry they
    compute.

    Modelling conventions.
    - A canvas is its two integer dimensions and a pixel function; reading
      outside the canvas yields the transparent pixel.
    - Lengths and offsets handled by [processSlices] are integers ([Z]); the
      arithmetic of [resizeImageTo640] is carried out on IEEE-754 binary64
      values ([spec_float] at precision 53), the way a JavaScript [number]
      behaves, and the assignment to [canvas.width] and [canvas.height]
      applies the conversion to an unsigned 32-bit integer and the range of
      the reflected attribute.
    - What the browser decides (whether a 2D context is obtained, what
      [toBlob] does with a canvas, the object URL of a blob, the smoothing
      resampler) is gathered in the [Platform] class.
    - [drawImage] throws for a source it cannot use, as the DOM does: a
      canvas with a zero dimension, an image in the broken state.
    - The [slices] array mutated by [extract] is threaded through a small
      state monad in which an exception ends the run. *)

From Stdlib Require Import ZArith List String Ascii Bool Lia.
From Stdlib Require Import Sorting.Sorted Sorting.Permutation.
From Stdlib Require Import Floats.SpecFloat.
Import ListNotations.
Open Scope Z_scope.

(** ** Outcomes *)

(** The outcome of a promise, or of a call that may throw: resolved with a
    value, or rejected with the message (for a [DOMException], the name) of
    what was thrown. *)
Inductive Outcome (A : Type) : Type :=
| Resolved (a : A)
| Rejected (msg : string).

Arguments Resolved {A} a.
Arguments Rejected {A} msg.

(** ** Raster surfaces *)

Definition Pixel := Z.

Definition transparent : Pixel := 0.

Record Canvas := mkCanvas {
  cwidth : Z;
  cheight : Z;
  cpixel : Z -> Z -> Pixel
}.

(** A canvas whose size has just been set: every pixel is transparent. *)
Definition blankCanvas (w h : Z) : Canvas :=
  mkCanvas w h (fun _ _ => transparent).

(** [document.createElement('canvas')]: the default size is 300 x 150. *)
Definition createElementCanvas : Canvas := blankCanvas 300 150.

Definition inside (c : Canvas) (x y : Z) : bool :=
  (0 <=? x) && (x <? cwidth c) && (0 <=? y) && (y <? cheight c).

Definition getPixel (c : Canvas) (x y : Z) : Pixel :=
  if inside c x y then cpixel c x y else transparent.

(** What [drawImage] paints when it paints.  Every call of [processSlices]
    passes [dw = sw] and [dh = sh], so no rescaling takes place: a
    destination pixel of the rectangle takes the source pixel at the same
    offset, provided the latter lies inside the source (the source rectangle
    is clipped to the source).  The destination is a freshly sized,
    transparent canvas at both call sites, so that compositing amounts to a
    copy. *)
Definition copyRect (dst src : Canvas) (sx sy sw sh dx dy dw dh : Z) : Canvas :=
  mkCanvas (cwidth dst) (cheight dst)
    (fun x y =>
       if (dx <=? x) && (x <? dx + dw) && (dy <=? y) && (y <? dy + dh)
          && (x - dx <? sw) && (y - dy <? sh)
          && inside src (sx + (x - dx)) (sy + (y - dy))
       then cpixel src (sx + (x - dx)) (sy + (y - dy))
       else cpixel dst x y).

(** A source canvas with a horizontal or a vertical dimension equal to zero
    cannot be used as an image source. *)
Definition unusable (src : Canvas) : bool :=
  (cwidth src =? 0) || (cheight src =? 0).

(** [ctx.drawImage(src, sx, sy, sw, sh, dx, dy, dw, dh)] on the context of
    [dst], for a source canvas: an [InvalidStateError] is thrown for a source
    that cannot be used, otherwise the rectangle is painted. *)
Definition drawImage (dst src : Canvas) (sx sy sw sh dx dy dw dh : Z)
  : Outcome Canvas :=
  if unusable src then Rejected "InvalidStateError"
  else Resolved (copyRect dst src sx sy sw sh dx dy dw dh).

(** ** JavaScript numbers (binary64) *)

Definition prec : Z := 53.
Definition emax : Z := 1024.

Definition number := spec_float.

Definition ofInt (n : Z) : number := binary_normalize prec emax n 0 false.

Definition numDiv (a b : number) : number := SFdiv prec emax a b.

Definition numMul (a b : number) : number := SFmul prec emax a b.

(** Neither NaN nor an infinity. *)
Definition isFinite (x : number) : bool :=
  match x with
  | S754_zero _ | S754_finite _ _ _ => true
  | _ => false
  end.

(** Integer part of a finite number, rounding towards zero. *)
Definition integerPart (x : number) : Z :=
  match x with
  | S754_finite s m e =>
      let mag := match e with
                 | Z0 => Zpos m
                 | Zpos p => Zpos m * 2 ^ Zpos p
                 | Zneg p => Zpos m / 2 ^ Zpos p
                 end in
      if s then - mag else mag
  | _ => 0
  end.

(** Conversion of a number to the IDL type [unsigned long]: NaN, the zeros
    and the infinities give 0, any other value is truncated and reduced
    modulo 2^32. *)
Definition toUnsignedLong (x : number) : Z :=
  match x with
  | S754_finite _ _ _ => integerPart x mod 2 ^ 32
  | _ => 0
  end.

(** [canvas.width] and [canvas.height] reflect content attributes limited to
    0 .. 2^31 - 1: a value assigned outside this range is replaced by the
    default of the attribute (300 for the width, 150 for the height). *)
Definition reflected (default v : Z) : Z :=
  if v <=? 2147483647 then v else default.

(** The dimension a canvas has after [canvas.width = x] or
    [canvas.height = x]. *)
Definition assignedWidth (x : number) : Z := reflected 300 (toUnsignedLong x).

Definition assignedHeight (x : number) : Z := reflected 150 (toUnsignedLong x).

(** ** Images and slices *)

(** An image element: the values of its [width] and [height] attributes,
    whether its current request is in the broken state, and its pixels. *)
Record HTMLImageElement := mkImage {
  iwidth : Z;
  iheight : Z;
  ibroken : bool;
  ipixel : Z -> Z -> Pixel
}.

(** What the browser contributes to a run. *)
Class Platform := {
  Blob : Type;
  (** does [canvas.getContext('2d')] return a context for this canvas? *)
  getContext2d : Canvas -> bool;
  (** [canvas.toBlob(callback, 'image/png')]: the call throws (a
      [SecurityError] for a canvas that is not origin-clean), or the
      callback receives [null] or a blob *)
  toBlob : Canvas -> Outcome (option Blob);
  createObjectURL : Blob -> string;
  (** the pixel at (x, y) of the image drawn scaled to the given size *)
  smoothScale : HTMLImageElement -> number -> number -> Z -> Z -> Pixel
}.

Section Engine.

Context {P : Platform}.

(** [SliceResult] of [types.ts]. *)
Record SliceResult := mkSlice {
  id : string;
  name : string;
  blob : Blob;
  url : string;
  width : Z;
  height : Z;
  x : Z;
  y : Z
}.

(** *** The monad of the [slices] array and of exceptions *)

Definition Slices := list SliceResult.

Definition M (A : Type) : Type := Slices -> Outcome (A * Slices).

Definition ret {A : Type} (a : A) : M A := fun s => Resolved (a, s).

Definition throw {A : Type} (msg : string) : M A := fun _ => Rejected msg.

Definition bind {A B : Type} (m : M A) (k : A -> M B) : M B :=
  fun s =>
    match m s with
    | Resolved (a, s') => k a s'
    | Rejected msg => Rejected msg
    end.

Definition push (r : SliceResult) : M unit :=
  fun s => Resolved (tt, s ++ [r]).

(** The array once an action has run on the empty array; nothing is left of
    a run that throws. *)
Definition execM {A : Type} (m : M A) : Slices :=
  match m [] with
  | Resolved (_, s) => s
  | Rejected _ => []
  end.

Notation "m ;; k" := (bind m (fun _ => k))
  (at level 61, right associativity).

(** *** resizeImageTo640 *)

(** [ctx.drawImage(img, 0, 0, dw, dh)] on the context of [dst], for an image
    element: nothing happens when an argument is not finite; otherwise an
    [InvalidStateError] is thrown for an image in the broken state; otherwise
    the image is painted scaled to [dw] x [dh] (what an image that cannot be
    decoded paints is left to [smoothScale]). *)
Definition drawImageScaled (dst : Canvas) (img : HTMLImageElement)
  (dw dh : number) : Outcome Canvas :=
  if negb (isFinite dw && isFinite dh) then Resolved dst
  else if ibroken img then Rejected "InvalidStateError"
  else Resolved (mkCanvas (cwidth dst) (cheight dst) (smoothScale img dw dh)).

Definition resizeImageTo640 (img : HTMLImageElement) : Outcome Canvas :=
  let canvas := createElementCanvas in
  if negb (getContext2d canvas) then Rejected "Could not get canvas context"
  else
    let targetWidth := ofInt 640 in
    let scaleFactor := numDiv targetWidth (ofInt (iwidth img)) in
    let targetHeight := numMul (ofInt (iheight img)) scaleFactor in
    let canvas :=
      blankCanvas (assignedWidth targetWidth) (assignedHeight targetHeight) in
    drawImageScaled canvas img targetWidth targetHeight.

(** *** processSlices *)

Definition splitY1 : Z := 640.

(** The canvas [c] of [extract] once the region has been drawn into it. *)
Definition regionCanvas (sourceCanvas : Canvas) (x y w h : Z) : Canvas :=
  copyRect (blankCanvas w h) sourceCanvas x y w h 0 0 w h.

Definition extract (sourceCanvas : Canvas) (x y w h : Z) (name : string)
  : M unit :=
  if (h <=? 0) || (w <=? 0) then ret tt
  else
    let c := blankCanvas w h in
    if negb (getContext2d c) then ret tt
    else
      match drawImage c sourceCanvas x y w h 0 0 w h with
      | Rejected msg => throw msg
      | Resolved c =>
          match toBlob c with
          | Rejected msg => throw msg
          | Resolved (Some blob) =>
              push (mkSlice name (name ++ ".png") blob (createObjectURL blob)
                            w h x y)
          | Resolved None => ret tt
          end
      end.

Definition m4Width : Z := 640.
Definition m4Height : Z := 480.

(** The canvas [c4] at the time it is encoded. *)
Definition m4Canvas (sourceCanvas : Canvas) (botStart : Z) : Canvas :=
  let c4 := blankCanvas m4Width m4Height in
  let availableHeight := cheight sourceCanvas - botStart in
  if 0 <? availableHeight then
    let h := Z.min availableHeight m4Height in
    copyRect c4 sourceCanvas 0 botStart m4Width h 0 0 m4Width h
  else c4.

Definition extractM4 (sourceCanvas : Canvas) (botStart : Z) : M unit :=
  let c4 := blankCanvas m4Width m4Height in
  if getContext2d c4 then
    let availableHeight := cheight sourceCanvas - botStart in
    match
      (if 0 <? availableHeight then
         let h := Z.min availableHeight m4Height in
         drawImage c4 sourceCanvas 0 botStart m4Width h 0 0 m4Width h
       else Resolved c4)
    with
    | Rejected msg => throw msg
    | Resolved c4 =>
        match toBlob c4 with
        | Rejected msg => throw msg
        | Resolved (Some blob) =>
            push (mkSlice "m_4" "m_4.png" blob (createObjectURL blob)
                          m4Width m4Height 0 botStart)
        | Resolved None => ret tt
        end
    end
  else ret tt.

(** [a.name.localeCompare(b.name) <= 0], taken as the order of the character
    codes; on the names the engine builds, which differ in one digit only,
    every collation agrees with it. *)
Definition nameLe (a b : SliceResult) : bool := (name a <=? name b)%string.

(** [Array.prototype.sort] is stable: an element is inserted after the
    elements it compares equal to. *)
Fixpoint insertSlice (a : SliceResult) (l : list SliceResult)
  : list SliceResult :=
  match l with
  | [] => [a]
  | b :: l' => if nameLe b a then b :: insertSlice a l' else a :: b :: l'
  end.

Definition sortSlices (l : list SliceResult) : list SliceResult :=
  fold_left (fun acc a => insertSlice a acc) l [].

(** The statements of [processSlices] between the context check and the
    final sort. *)
Definition sliceAll (sourceCanvas : Canvas) (splitY2 : Z) : M unit :=
  let totalHeight := cheight sourceCanvas in
  let topHeight := Z.min splitY1 totalHeight in
  extract sourceCanvas 0 0 80 topHeight "m_5" ;;
  extract sourceCanvas 560 0 80 topHeight "m_6" ;;
  extract sourceCanvas 80 0 240 topHeight "m_1" ;;
  extract sourceCanvas 320 0 240 topHeight "m_2" ;;
  let midStart := splitY1 in
  let midEnd := Z.min splitY2 totalHeight in
  let midHeight := midEnd - midStart in
  (if 0 <? midHeight
   then extract sourceCanvas 0 midStart 640 midHeight "m_3"
   else ret tt) ;;
  let botStart := midEnd in
  extractM4 sourceCanvas botStart.

Definition processSlices (sourceCanvas : Canvas) (splitY2 : Z)
  : Outcome (list SliceResult) :=
  if negb (getContext2d sourceCanvas) then Rejected "No context"
  else
    match sliceAll sourceCanvas splitY2 [] with
    | Resolved (_, slices) => Resolved (sortSlices slices)
    | Rejected msg => Rejected msg
    end.

End Engine.

Arguments SliceResult : clear implicits.
Arguments Slices : clear implicits.
Arguments M : clear implicits.

Notation "m ;; k" := (bind m (fun _ => k))
  (at level 61, right associativity).

(** The geometry recorded in a slice. *)
Definition descriptor {P : Platform} (r : SliceResult P)
  : string * Z * Z * Z * Z :=
  (id r, x r, y r, width r, height r).

(** ** Concrete platforms and rasters *)

(** The encoder of the concrete platforms: [null] for a canvas without
    pixels, the canvas itself as its blob otherwise. *)
Definition encodeCanvas (c : Canvas) : option Canvas :=
  if (cwidth c <=? 0) || (cheight c <=? 0) then None else Some c.

(** A platform on which every context is granted and every canvas that has
    pixels is encoded. *)
Definition idealPlatform : Platform :=
  {| Blob := Canvas;
     getContext2d := fun _ => true;
     toBlob := fun c => Resolved (encodeCanvas c);
     createObjectURL := fun _ => "blob:slice"%string;
     smoothScale := fun img _ _ x y => ipixel img x y |}.

(** A platform whose encoder yields nothing for canvases 80 pixels wide. *)
Definition lossyPlatform : Platform :=
  {| Blob := Canvas;
     getContext2d := fun _ => true;
     toBlob := fun c =>
       Resolved (if cwidth c =? 80 then None else encodeCanvas c);
     createObjectURL := fun _ => "blob:slice"%string;
     smoothScale := fun img _ _ x y => ipixel img x y |}.


(** A raster whose pixels are all distinct and opaque. *)
Definition gradient (w h : Z) : Canvas :=
  mkCanvas w h (fun x y => 1 + x + 1000 * y).

(** An image that has loaded. *)
Definition photo (w h : Z) : HTMLImageElement :=
  mkImage w h false (fun x y => 1 + x + 1000 * y).

(** An image element in the broken state that is laid out at [w] x [h]. *)
Definition brokenImage (w h : Z) : HTMLImageElement :=
  mkImage w h true (fun _ _ => transparent).

Definition outcomeMap {A B : Type} (f : A -> B) (o : Outcome A) : Outcome B :=
  match o with
  | Resolved a => Resolved (f a)
  | Rejected msg => Rejected msg
  end.

(** An action runs to its end on the empty array. *)
Definition resolves {P : Platform} {A : Type} (m : M P A) : Prop :=
  exists a s, m [] = Resolved (a, s).

(** An action that only appends to the array, and throws or not
    independently of what the array holds. *)
Definition appender {P : Platform} (m : M P unit) : Prop :=
  forall s,
    m s = match m [] with
          | Resolved (_, out) => Resolved (tt, s ++ out)
          | Rejected msg => Rejected msg
          end.

(** What [extract] appends to the array (nothing, or one slice). *)
Definition extractOut {P : Platform} (sourceCanvas : Canvas) (x y w h : Z)
  (name : string) : Slices P :=
  execM (extract sourceCanvas x y w h name).

(** The middle part of [processSlices]: one call of [extract], guarded by
    [midHeight > 0]. *)
Definition middle {P : Platform} (sourceCanvas : Canvas) (splitY2 : Z)
  : M P unit :=
  let midHeight := Z.min splitY2 (cheight sourceCanvas) - splitY1 in
  if 0 <? midHeight then extract sourceCanvas 0 splitY1 640 midHeight "m_3"
  else ret tt.

(** What the middle part appends. *)
Definition middleOut {P : Platform} (sourceCanvas : Canvas) (splitY2 : Z)
  : Slices P :=
  let midHeight := Z.min splitY2 (cheight sourceCanvas) - splitY1 in
  if 0 <? midHeight then extractOut sourceCanvas 0 splitY1 640 midHeight "m_3"
  else [].

(** The values the constants [midEnd] (also [botStart]), [midHeight] and
    [availableHeight] of [processSlices] take. *)
Definition midEndOf (sourceCanvas : Canvas) (splitY2 : Z) : Z :=
  Z.min splitY2 (cheight sourceCanvas).

Definition midHeightOf (sourceCanvas : Canvas) (splitY2 : Z) : Z :=
  midEndOf sourceCanvas splitY2 - splitY1.

Definition availableHeightOf (sourceCanvas : Canvas) (splitY2 : Z) : Z :=
  cheight sourceCanvas - midEndOf sourceCanvas splitY2.

(** The rectangles handed to [extract], with their names: the four of the
    top band and the middle one. *)
Definition extractRegions (sourceCanvas : Canvas) (splitY2 : Z)
  : list (string * Z * Z * Z * Z) :=
  let topHeight := Z.min splitY1 (cheight sourceCanvas) in
  [("m_5"%string, 0, 0, 80, topHeight); ("m_6"%string, 560, 0, 80, topHeight);
   ("m_1"%string, 80, 0, 240, topHeight);
   ("m_2"%string, 320, 0, 240, topHeight);
   ("m_3"%string, 0, splitY1, 640, midHeightOf sourceCanvas splitY2)].

(** What the bottom part appends to the array. *)
Definition m4Out {P : Platform} (sourceCanvas : Canvas) (botStart : Z)
  : Slices P :=
  execM (extractM4 sourceCanvas botStart).

(** No call of [drawImage] in a run on this source with this [splitY2] can
    throw: the source has a width, and it has a height unless nothing is
    drawn from it ([splitY2 >= 0] leaves nothing for m_4 to draw from a
    source without rows). *)
Definition drawable (sourceCanvas : Canvas) (splitY2 : Z) : Prop :=
  cwidth sourceCanvas <> 0 /\ (cheight sourceCanvas <> 0 \/ 0 <= splitY2).

(** [toBlob] does not throw for the canvas of a region of positive height
    handed to [extract]. *)
Definition regionsAnswered (P : Platform) (sourceCanvas : Canvas)
  (splitY2 : Z) : Prop :=
  forall n x0 y0 w h,
    In (n, x0, y0, w, h) (extractRegions sourceCanvas splitY2) ->
    0 < h ->
    exists answer, toBlob (regionCanvas sourceCanvas x0 y0 w h)
                   = Resolved answer.

(** The platform serves a run on this source with this [splitY2]: each
    context the run asks for is granted, and each canvas the run hands to
    [toBlob] (those of the regions of positive height, and the 640 x 480
    canvas of m_4) is encoded. *)
Definition served (P : Platform) (sourceCanvas : Canvas) (splitY2 : Z)
  : Prop :=
  getContext2d sourceCanvas = true /\
  (forall n x0 y0 w h,
     In (n, x0, y0, w, h) (extractRegions sourceCanvas splitY2) ->
     0 < h ->
     getContext2d (blankCanvas w h) = true /\
     exists b, toBlob (regionCanvas sourceCanvas x0 y0 w h)
               = Resolved (Some b)) /\
  getContext2d (blankCanvas 640 480) = true /\
  exists b, toBlob (m4Canvas sourceCanvas (midEndOf sourceCanvas splitY2))
            = Resolved (Some b).

Definition hasId {P : Platform} (n : string) (r : SliceResult P) : bool :=
  (id r =? n)%string.

(** The slices cut from the top band. *)
Definition topGroup {P : Platform} (r : SliceResult P) : bool :=
  hasId "m_5" r || hasId "m_6" r || hasId "m_1" r || hasId "m_2" r.

(** The four regions of the top band, of height [th], in name order. *)
Definition topRow (th : Z) : list (string * Z * Z * Z * Z) :=
  [("m_1"%string, 80, 0, 240, th); ("m_2"%string, 320, 0, 240, th);
   ("m_5"%string, 0, 0, 80, th); ("m_6"%string, 560, 0, 80, th)].

Definition nameOrder {P : Platform} (a b : SliceResult P) : Prop :=
  (name a <=? name b)%string = true.

(** The exact quotient [h * 640 / w] rounded down, up, and to the nearest
    integer (ties upwards). *)
Definition exactFloor (w h : Z) : Z := (h * 640) / w.
Definition exactCeil (w h : Z) : Z := - ((- (h * 640)) / w).
Definition exactNearest (w h : Z) : Z := (2 * h * 640 + w) / (2 * w).

(** The geometry of the whole result, in name order, for a source of height
    [h]. *)
Definition expectedDescriptors (h splitY2 : Z)
  : list (string * Z * Z * Z * Z) :=
  let topHeight := Z.min 640 h in
  let midEnd := Z.min splitY2 h in
  (if 0 <? h
   then [("m_1"%string, 80, 0, 240, topHeight);
         ("m_2"%string, 320, 0, 240, topHeight)]
   else [])
  ++ (if 0 <? midEnd - 640
      then [("m_3"%string, 0, 640, 640, midEnd - 640)] else [])
  ++ [("m_4"%string, 0, midEnd, 640, 480)]
  ++ (if 0 <? h
      then [("m_5"%string, 0, 0, 80, topHeight);
            ("m_6"%string, 560, 0, 80, topHeight)]
      else []).

Definition sliceIds : list string :=
  ["m_1"; "m_2"; "m_3"; "m_4"; "m_5"; "m_6"]%string.

(** ** loadImage *)

(** The files the user can pick, and what the browser makes of one when it
    is assigned to the [src] of an image: [onload] with the decoded image, or
    [onerror]. *)
Class Browser := {
  File : Type;
  decodeImage : File -> option HTMLImageElement
}.

(** The promise is rejected with the error event, which carries no
    message. *)
Definition loadImage {Br : Browser} (file : File)
  : Outcome HTMLImageElement :=
  match decodeImage file with
  | Some img => Resolved img
  | None => Rejected "[object Event]"
  end.

(** ** createZip *)

(** The archive object of the JSZip library: [zip.file(name, data)], the
    files an archive holds, in order, and [zip.generateAsync]. *)
Class JSZip (B : Type) := {
  Zip : Type;
  newJSZip : Zip;
  zipFile : Zip -> string -> B -> Zip;
  zipEntries : Zip -> list (string * B);
  generateAsync : Zip -> Outcome B
}.

(** [slices.forEach(slice => zip.file(slice.name, slice.blob))] on a new
    archive. *)
Definition fillZip {P : Platform} {J : JSZip Blob} (slices : Slices P) : Zip :=
  fold_left (fun zip slice => zipFile zip (name slice) (blob slice))
            slices newJSZip.

(** The same loop on an archive that holds files already. *)
Definition fill {P : Platform} {J : JSZip Blob} (zip : Zip)
  (slices : Slices P) : Zip :=
  fold_left (fun zip slice => zipFile zip (name slice) (blob slice))
            slices zip.

Definition createZip {P : Platform} {J : JSZip Blob} (slices : Slices P)
  : Outcome Blob :=
  generateAsync (fillZip slices).

(** Adding a file under a name: a file of that name is replaced where it
    stands, a new name goes to the end. *)
Fixpoint upsert {B : Type} (n : string) (b : B) (es : list (string * B))
  : list (string * B) :=
  match es with
  | [] => [(n, b)]
  | (m, c) :: es' =>
      if (m =? n)%string then (n, b) :: es' else (m, c) :: upsert n b es'
  end.

(** A name without a path separator, for which JSZip creates no folder. *)
Definition slashFree (n : string) : bool :=
  forallb (fun c => negb (Ascii.eqb c "/")) (list_ascii_of_string n).

(** What the documentation of JSZip says of [file]: it adds or updates the
    file of the given name; a new archive holds no file. *)
Definition addsOrUpdates {B : Type} (J : JSZip B) : Prop :=
  zipEntries newJSZip = [] /\
  forall zip n b,
    slashFree n = true ->
    zipEntries (zipFile zip n b) = upsert n b (zipEntries zip).

(** An archive kept as the list of its files. *)
Definition listZip (B : Type) (pack : list (string * B) -> Outcome B)
  : JSZip B :=
  {| Zip := list (string * B);
     newJSZip := [];
     zipFile := fun zip n b => upsert n b zip;
     zipEntries := fun zip => zip;
     generateAsync := pack |}.

(** ** The handlers of [App] *)

Module App.

Section Handlers.

Context {P : Platform} {Br : Browser}.

(** The state hooks of the component, and the messages shown by [alert]. *)
Record State := mkState {
  file : option File;
  canvas : option Canvas;
  slices : list (SliceResult P);
  isProcessing : bool;
  alerts : list string
}.

Definition initial : State := mkState None None [] false [].

Definition setFile (f : File) (st : State) : State :=
  mkState (Some f) (canvas st) (slices st) (isProcessing st) (alerts st).

Definition setCanvas (c : Canvas) (st : State) : State :=
  mkState (file st) (Some c) (slices st) (isProcessing st) (alerts st).

Definition setSlices (l : list (SliceResult P)) (st : State) : State :=
  mkState (file st) (canvas st) l (isProcessing st) (alerts st).

Definition setIsProcessing (b : bool) (st : State) : State :=
  mkState (file st) (canvas st) (slices st) b (alerts st).

Definition alert (msg : string) (st : State) : State :=
  mkState (file st) (canvas st) (slices st) (isProcessing st)
          (alerts st ++ [msg]).

Definition m3Height : Z := 160.
Definition SPLIT_Y1 : Z := 640.
Definition splitY2 : Z := SPLIT_Y1 + m3Height.

(** [files] is [e.target.files[0]] when the input holds a file. *)
Definition handleFileChange (files : option File) (st : State) : State :=
  match files with
  | Some selectedFile =>
      let st := setSlices [] (setFile selectedFile st) in
      match loadImage selectedFile with
      | Resolved img =>
          match resizeImageTo640 img with
          | Resolved resizedCanvas => setCanvas resizedCanvas st
          | Rejected _ =>
              alert "Could not load image. Please try another file." st
          end
      | Rejected _ =>
          alert "Could not load image. Please try another file." st
      end
  | None => st
  end.

Definition handleProcess (st : State) : State :=
  match canvas st with
  | None => st
  | Some c =>
      let st := setIsProcessing true st in
      let st :=
        match processSlices c splitY2 with
        | Resolved result => setSlices result st
        | Rejected _ => alert "Error processing slices" st
        end in
      setIsProcessing false st
  end.

(** What the user does: picks a file (or dismisses the picker) or presses
    the button. *)
Inductive Event :=
| FileChange (files : option File)
| Process.

Definition handle (st : State) (e : Event) : State :=
  match e with
  | FileChange files => handleFileChange files st
  | Process => handleProcess st
  end.

(** The state after a sequence of events handled one after the other: a
    handler has run to its end, awaits included, before the next event
    arrives.  (In the browser the input stays live while a file loads;
    events that arrive during a handler are outside this definition.) *)
Definition run (events : list Event) : State := fold_left handle events initial.

End Handlers.

End App.

Arguments App.State : clear implicits.

(** The state between two events: nothing is being processed, a canvas
    kept is 640 pixels wide and came with a file, and the slices shown are
    none or the result for the canvas kept. *)
Definition settled {P : Platform} {Br : Browser} (st : App.State P Br)
  : Prop :=
  App.isProcessing st = false /\
  (forall c, App.canvas st = Some c ->
             cwidth c = 640 /\ App.file st <> None) /\
  (App.slices st = [] \/
   exists c, App.canvas st = Some c /\
             processSlices c 800 = Resolved (App.slices st)).

(** An archive of canvases kept as a list, with no packer behind it. *)
Definition plainZip : JSZip Canvas :=
  listZip Canvas (fun _ => Rejected "no packer").

(** A browser whose files are images already; a file of width 1 stands for
    one that cannot be decoded. *)
Definition plainBrowser : Browser :=
  {| File := HTMLImageElement;
     decodeImage := fun f => if iwidth f =? 1 then None else Some f |}.

(** The events of [plainBrowser]: picking an image, pressing the button. *)
Definition pick (img : HTMLImageElement) : @App.Event plainBrowser :=
  @App.FileChange plainBrowser (Some img).

Definition press : @App.Event plainBrowser := @App.Process plainBrowser.

(** * Properties *)

Section Facts.

Context {P : Platform}.

Implicit Types (r : SliceResult P) (l : list (SliceResult P)).

(** ** Actions that append *)

Lemma appender_ret : appender (P := P) (ret tt).
Proof. intros s. unfold ret. now rewrite app_nil_r. Qed.

Lemma appender_throw msg : appender (P := P) (throw msg).
Proof. intros s. reflexivity. Qed.

Lemma appender_push r : appender (push r).
Proof. intros s. reflexivity. Qed.

Lemma seq_run (a b : M P unit) :
  appender b ->
  (a ;; b) [] = match a [] with
                | Resolved (_, oa) =>
                    match b [] with
                    | Resolved (_, ob) => Resolved (tt, oa ++ ob)
                    | Rejected msg => Rejected msg
                    end
                | Rejected msg => Rejected msg
                end.
Proof.
  intros Hb. unfold bind. destruct (a []) as [[u oa]|msg]; [|reflexivity].
  apply Hb.
Qed.

Lemma appender_seq (a b : M P unit) :
  appender a -> appender b -> appender (a ;; b).
Proof.
  intros Ha Hb s. rewrite (seq_run a b Hb). unfold bind. rewrite (Ha s).
  destruct (a []) as [[u oa]|msg]; [|reflexivity].
  rewrite (Hb (s ++ oa)). destruct (b []) as [[v ob]|msg]; [|reflexivity].
  now rewrite app_assoc.
Qed.

Lemma seq_resolved (a b : M P unit) u out :
  appender b ->
  (a ;; b) [] = Resolved (u, out) ->
  exists oa ob,
    a [] = Resolved (tt, oa) /\ b [] = Resolved (tt, ob) /\ out = oa ++ ob.
Proof.
  intros Hb. rewrite (seq_run a b Hb).
  destruct (a []) as [[[] oa]|msg]; [|discriminate].
  destruct (b []) as [[[] ob]|msg]; [|discriminate].
  intros [= <-]. now exists oa, ob.
Qed.

Lemma seq_resolves (a b : M P unit) oa ob :
  appender b ->
  a [] = Resolved (tt, oa) -> b [] = Resolved (tt, ob) ->
  (a ;; b) [] = Resolved (tt, oa ++ ob).
Proof. intros Hb Ha Hrun. now rewrite (seq_run a b Hb), Ha, Hrun. Qed.

Lemma seq_rejected (a b : M P unit) msg :
  appender b ->
  (a ;; b) [] = Rejected msg ->
  a [] = Rejected msg \/ b [] = Rejected msg.
Proof.
  intros Hb. rewrite (seq_run a b Hb).
  destruct (a []) as [[u oa]|msga]; [|intros [= <-]; now left].
  destruct (b []) as [[v ob]|msgb]; [discriminate|].
  intros [= <-]. now right.
Qed.

Lemma resolved_execM (m : M P unit) u out :
  m [] = Resolved (u, out) -> execM m = out.
Proof. unfold execM. now intros ->. Qed.

Lemma resolves_execM (m : M P unit) :
  resolves m -> m [] = Resolved (tt, execM m).
Proof. intros ([] & s & Hrun). unfold execM. now rewrite Hrun. Qed.

(** ** The calls of [drawImage] *)

Lemma drawImage_region sourceCanvas x0 y0 w h :
  unusable sourceCanvas = false ->
  drawImage (blankCanvas w h) sourceCanvas x0 y0 w h 0 0 w h
  = Resolved (regionCanvas sourceCanvas x0 y0 w h).
Proof. intros Hu. unfold drawImage. now rewrite Hu. Qed.

Lemma drawImage_unusable dst sourceCanvas sx sy sw sh dx dy dw dh :
  unusable sourceCanvas = true ->
  drawImage dst sourceCanvas sx sy sw sh dx dy dw dh
  = Rejected "InvalidStateError".
Proof. intros Hu. unfold drawImage. now rewrite Hu. Qed.

(** ** What [extract] does *)

Lemma extract_appender sourceCanvas x0 y0 w h n :
  appender (extract sourceCanvas x0 y0 w h n).
Proof.
  unfold extract.
  destruct ((h <=? 0) || (w <=? 0)); [apply appender_ret|].
  destruct (negb (getContext2d (blankCanvas w h))); [apply appender_ret|].
  destruct (drawImage (blankCanvas w h) sourceCanvas x0 y0 w h 0 0 w h)
    as [c|msg]; [|apply appender_throw].
  destruct (toBlob c) as [[b|]|msg];
    [apply appender_push | apply appender_ret | apply appender_throw].
Qed.

Lemma extract_skips sourceCanvas x0 y0 w h n :
  h <= 0 \/ w <= 0 ->
  extract (P := P) sourceCanvas x0 y0 w h n [] = Resolved (tt, []).
Proof.
  intros Hneg. unfold extract.
  replace ((h <=? 0) || (w <=? 0)) with true; [reflexivity|].
  symmetry. apply orb_true_iff. rewrite !Z.leb_le. exact Hneg.
Qed.

Lemma extractOut_skip sourceCanvas x0 y0 w h n :
  h <= 0 \/ w <= 0 -> extractOut (P := P) sourceCanvas x0 y0 w h n = [].
Proof.
  intros Hneg. unfold extractOut.
  apply (resolved_execM _ tt). now apply extract_skips.
Qed.

Lemma extract_emits sourceCanvas x0 y0 w h n b :
  0 < w -> 0 < h ->
  getContext2d (blankCanvas w h) = true ->
  unusable sourceCanvas = false ->
  toBlob (regionCanvas sourceCanvas x0 y0 w h) = Resolved (Some b) ->
  extract sourceCanvas x0 y0 w h n []
  = Resolved (tt, [mkSlice n (n ++ ".png") b (createObjectURL b) w h x0 y0]).
Proof.
  intros Hw Hh Hctx Hu Hblob. unfold extract.
  replace ((h <=? 0) || (w <=? 0)) with false.
  - rewrite Hctx. simpl. rewrite (drawImage_region _ _ _ _ _ Hu), Hblob.
    reflexivity.
  - symmetry. apply orb_false_iff. rewrite !Z.leb_gt. now split.
Qed.

Lemma extractOut_emits sourceCanvas x0 y0 w h n b :
  0 < w -> 0 < h ->
  getContext2d (blankCanvas w h) = true ->
  unusable sourceCanvas = false ->
  toBlob (regionCanvas sourceCanvas x0 y0 w h) = Resolved (Some b) ->
  extractOut sourceCanvas x0 y0 w h n
  = [mkSlice n (n ++ ".png") b (createObjectURL b) w h x0 y0].
Proof.
  intros Hw Hh Hctx Hu Hblob. unfold extractOut.
  apply (resolved_execM _ tt). now apply extract_emits.
Qed.

Lemma extractOut_inv sourceCanvas x0 y0 w h n r :
  In r (extractOut sourceCanvas x0 y0 w h n) ->
  extractOut sourceCanvas x0 y0 w h n = [r] /\
  0 < w /\ 0 < h /\
  id r = n /\ name r = (n ++ ".png")%string /\
  width r = w /\ height r = h /\ x r = x0 /\ y r = y0 /\
  getContext2d (blankCanvas w h) = true /\
  toBlob (regionCanvas sourceCanvas x0 y0 w h) = Resolved (Some (blob r)).
Proof.
  unfold extractOut, execM, extract.
  destruct ((h <=? 0) || (w <=? 0)) eqn:Hguard; [intros []|].
  apply orb_false_iff in Hguard. rewrite !Z.leb_gt in Hguard.
  destruct (getContext2d (blankCanvas w h)) eqn:Hctx; [|intros []].
  simpl. unfold drawImage.
  destruct (unusable sourceCanvas); [intros []|].
  fold (regionCanvas sourceCanvas x0 y0 w h).
  destruct (toBlob (regionCanvas sourceCanvas x0 y0 w h)) as [[b|]|msg]
    eqn:Hblob; [|intros []|intros []].
  simpl. intros [<- | []]. simpl. intuition.
Qed.

(** [extract] runs to its end unless [drawImage] or [toBlob] throws. *)
Lemma extract_resolves sourceCanvas x0 y0 w h n :
  unusable sourceCanvas = false \/ h <= 0 ->
  (0 < h -> exists answer,
     toBlob (regionCanvas sourceCanvas x0 y0 w h) = Resolved answer) ->
  resolves (extract sourceCanvas x0 y0 w h n).
Proof.
  intros Hu Hans. unfold resolves, extract.
  destruct ((h <=? 0) || (w <=? 0)) eqn:Hguard; [now eexists; eexists|].
  apply orb_false_iff in Hguard. rewrite !Z.leb_gt in Hguard.
  destruct (negb (getContext2d (blankCanvas w h))); [now eexists; eexists|].
  destruct Hu as [Hu|Hneg]; [|lia].
  rewrite (drawImage_region _ _ _ _ _ Hu).
  destruct (Hans (proj1 Hguard)) as [[b|] ->]; now eexists; eexists.
Qed.

Lemma extract_throws sourceCanvas x0 y0 w h n :
  0 < w -> 0 < h ->
  getContext2d (blankCanvas w h) = true ->
  unusable sourceCanvas = true ->
  extract sourceCanvas x0 y0 w h n [] = Rejected "InvalidStateError".
Proof.
  intros Hw Hh Hctx Hu. unfold extract.
  replace ((h <=? 0) || (w <=? 0)) with false.
  - rewrite Hctx. simpl. now rewrite drawImage_unusable.
  - symmetry. apply orb_false_iff. rewrite !Z.leb_gt. now split.
Qed.

(** ** What the bottom part does *)

Lemma extractM4_appender sourceCanvas botStart :
  appender (extractM4 sourceCanvas botStart).
Proof.
  unfold extractM4. cbv zeta.
  destruct (getContext2d (blankCanvas m4Width m4Height));
    [|apply appender_ret].
  destruct (if 0 <? cheight sourceCanvas - botStart
            then drawImage (blankCanvas m4Width m4Height) sourceCanvas 0
                   botStart m4Width
                   (Z.min (cheight sourceCanvas - botStart) m4Height) 0 0
                   m4Width (Z.min (cheight sourceCanvas - botStart) m4Height)
            else Resolved (blankCanvas m4Width m4Height)) as [c|msg];
    [|apply appender_throw].
  destruct (toBlob c) as [[b|]|msg];
    [apply appender_push | apply appender_ret | apply appender_throw].
Qed.

(** When nothing is thrown, the canvas handed to [toBlob] is [m4Canvas]. *)
Lemma m4_drawn sourceCanvas botStart :
  cheight sourceCanvas - botStart <= 0 \/ unusable sourceCanvas = false ->
  (if 0 <? cheight sourceCanvas - botStart
   then drawImage (blankCanvas m4Width m4Height) sourceCanvas 0 botStart
          m4Width (Z.min (cheight sourceCanvas - botStart) m4Height) 0 0
          m4Width (Z.min (cheight sourceCanvas - botStart) m4Height)
   else Resolved (blankCanvas m4Width m4Height))
  = Resolved (m4Canvas sourceCanvas botStart).
Proof.
  intros Hok. unfold m4Canvas. cbv zeta.
  destruct (Z.ltb_spec 0 (cheight sourceCanvas - botStart)) as [Hav|Hav];
    [|reflexivity].
  destruct Hok as [Hno|Hu]; [lia|]. unfold drawImage. now rewrite Hu.
Qed.

Lemma extractM4_emits sourceCanvas botStart b :
  getContext2d (blankCanvas m4Width m4Height) = true ->
  cheight sourceCanvas - botStart <= 0 \/ unusable sourceCanvas = false ->
  toBlob (m4Canvas sourceCanvas botStart) = Resolved (Some b) ->
  extractM4 sourceCanvas botStart []
  = Resolved (tt, [mkSlice "m_4" "m_4.png" b (createObjectURL b)
                           m4Width m4Height 0 botStart]).
Proof.
  intros Hctx Hok Hblob. unfold extractM4. cbv zeta.
  rewrite Hctx, (m4_drawn _ _ Hok), Hblob. reflexivity.
Qed.

Lemma m4Out_emits sourceCanvas botStart b :
  getContext2d (blankCanvas m4Width m4Height) = true ->
  cheight sourceCanvas - botStart <= 0 \/ unusable sourceCanvas = false ->
  toBlob (m4Canvas sourceCanvas botStart) = Resolved (Some b) ->
  m4Out sourceCanvas botStart
  = [mkSlice "m_4" "m_4.png" b (createObjectURL b) m4Width m4Height
             0 botStart].
Proof.
  intros Hctx Hok Hblob. unfold m4Out.
  apply (resolved_execM _ tt). now apply extractM4_emits.
Qed.

Lemma m4Out_inv sourceCanvas botStart r :
  In r (m4Out sourceCanvas botStart) ->
  m4Out sourceCanvas botStart = [r] /\
  id r = "m_4"%string /\ name r = "m_4.png"%string /\
  width r = 640 /\ height r = 480 /\ x r = 0 /\ y r = botStart /\
  getContext2d (blankCanvas m4Width m4Height) = true /\
  toBlob (m4Canvas sourceCanvas botStart) = Resolved (Some (blob r)).
Proof.
  unfold m4Out, execM, extractM4. cbv zeta.
  destruct (getContext2d (blankCanvas m4Width m4Height)) eqn:Hctx;
    [|intros []].
  assert (Hcases : cheight sourceCanvas - botStart <= 0
                   \/ unusable sourceCanvas = false
                   \/ (0 < cheight sourceCanvas - botStart
                       /\ unusable sourceCanvas = true)).
  { destruct (unusable sourceCanvas); [|tauto]. lia. }
  destruct Hcases as [Hok|[Hok|[Hav Hu]]].
  - rewrite (m4_drawn _ _ (or_introl Hok)).
    destruct (toBlob (m4Canvas sourceCanvas botStart)) as [[b|]|msg]
      eqn:Hblob; [|intros []|intros []].
    simpl. intros [<- | []]. simpl. intuition.
  - rewrite (m4_drawn _ _ (or_intror Hok)).
    destruct (toBlob (m4Canvas sourceCanvas botStart)) as [[b|]|msg]
      eqn:Hblob; [|intros []|intros []].
    simpl. intros [<- | []]. simpl. intuition.
  - replace (0 <? cheight sourceCanvas - botStart) with true
      by (symmetry; now apply Z.ltb_lt).
    rewrite drawImage_unusable by exact Hu. intros [].
Qed.

Lemma extractM4_resolves sourceCanvas botStart :
  cheight sourceCanvas - botStart <= 0 \/ unusable sourceCanvas = false ->
  (exists answer,
     toBlob (m4Canvas sourceCanvas botStart) = Resolved answer) ->
  resolves (extractM4 sourceCanvas botStart).
Proof.
  intros Hok [answer Hans]. unfold resolves, extractM4. cbv zeta.
  destruct (getContext2d (blankCanvas m4Width m4Height));
    [|now eexists; eexists].
  rewrite (m4_drawn _ _ Hok), Hans.
  destruct answer; now eexists; eexists.
Qed.

Lemma extractM4_throws sourceCanvas botStart :
  getContext2d (blankCanvas m4Width m4Height) = true ->
  0 < cheight sourceCanvas - botStart ->
  unusable sourceCanvas = true ->
  extractM4 sourceCanvas botStart [] = Rejected "InvalidStateError".
Proof.
  intros Hctx Hav Hu. unfold extractM4. cbv zeta. rewrite Hctx.
  replace (0 <? cheight sourceCanvas - botStart) with true
    by (symmetry; now apply Z.ltb_lt).
  now rewrite drawImage_unusable.
Qed.

(** ** The middle part *)

Lemma middle_appender sourceCanvas splitY2 :
  appender (middle (P := P) sourceCanvas splitY2).
Proof.
  unfold middle. cbv zeta.
  destruct (0 <? Z.min splitY2 (cheight sourceCanvas) - splitY1);
    [apply extract_appender | apply appender_ret].
Qed.

Lemma middleOut_execM sourceCanvas splitY2 :
  middleOut (P := P) sourceCanvas splitY2 = execM (middle sourceCanvas splitY2).
Proof.
  unfold middleOut, middle. cbv zeta.
  now destruct (0 <? Z.min splitY2 (cheight sourceCanvas) - splitY1).
Qed.

Lemma middleOut_inv sourceCanvas splitY2 r :
  In r (middleOut sourceCanvas splitY2) ->
  let midHeight := Z.min splitY2 (cheight sourceCanvas) - splitY1 in
  middleOut sourceCanvas splitY2 = [r] /\
  0 < midHeight /\
  id r = "m_3"%string /\ name r = "m_3.png"%string /\
  width r = 640 /\ height r = midHeight /\ x r = 0 /\ y r = splitY1 /\
  toBlob (regionCanvas sourceCanvas 0 splitY1 640 midHeight)
  = Resolved (Some (blob r)).
Proof.
  unfold middleOut. cbv zeta.
  destruct (0 <? Z.min splitY2 (cheight sourceCanvas) - splitY1) eqn:Hmid;
    [|intros []].
  intros Hin. apply extractOut_inv in Hin. intuition.
Qed.

(** ** The array after the six statements *)

Lemma sliceAll_parts sourceCanvas splitY2 :
  sliceAll (P := P) sourceCanvas splitY2
  = (let topHeight := Z.min splitY1 (cheight sourceCanvas) in
     extract sourceCanvas 0 0 80 topHeight "m_5" ;;
     extract sourceCanvas 560 0 80 topHeight "m_6" ;;
     extract sourceCanvas 80 0 240 topHeight "m_1" ;;
     extract sourceCanvas 320 0 240 topHeight "m_2" ;;
     middle sourceCanvas splitY2 ;;
     extractM4 sourceCanvas (Z.min splitY2 (cheight sourceCanvas))).
Proof. reflexivity. Qed.

Lemma sliceAll_resolved sourceCanvas splitY2 u out :
  sliceAll sourceCanvas splitY2 [] = Resolved (u, out) ->
  let topHeight := Z.min splitY1 (cheight sourceCanvas) in
  out = extractOut sourceCanvas 0 0 80 topHeight "m_5"
        ++ extractOut sourceCanvas 560 0 80 topHeight "m_6"
        ++ extractOut sourceCanvas 80 0 240 topHeight "m_1"
        ++ extractOut sourceCanvas 320 0 240 topHeight "m_2"
        ++ middleOut sourceCanvas splitY2
        ++ m4Out sourceCanvas (Z.min splitY2 (cheight sourceCanvas)).
Proof.
  rewrite sliceAll_parts. cbv zeta. intros Hrun.
  apply seq_resolved in Hrun as (o5 & t5 & H5 & Hrun & ->);
    [|repeat apply appender_seq; auto using extract_appender,
        middle_appender, extractM4_appender].
  apply seq_resolved in Hrun as (o6 & t6 & H6 & Hrun & ->);
    [|repeat apply appender_seq; auto using extract_appender,
        middle_appender, extractM4_appender].
  apply seq_resolved in Hrun as (o1 & t1 & H1 & Hrun & ->);
    [|repeat apply appender_seq; auto using extract_appender,
        middle_appender, extractM4_appender].
  apply seq_resolved in Hrun as (o2 & t2 & H2 & Hrun & ->);
    [|repeat apply appender_seq; auto using extract_appender,
        middle_appender, extractM4_appender].
  apply seq_resolved in Hrun as (o3 & o4 & H3 & H4 & ->);
    [|apply extractM4_appender].
  unfold extractOut, m4Out. rewrite middleOut_execM.
  now rewrite (resolved_execM _ _ _ H5), (resolved_execM _ _ _ H6),
    (resolved_execM _ _ _ H1), (resolved_execM _ _ _ H2),
    (resolved_execM _ _ _ H3), (resolved_execM _ _ _ H4).
Qed.

Lemma execM_sliceAll sourceCanvas splitY2 :
  resolves (sliceAll sourceCanvas splitY2) ->
  execM (sliceAll sourceCanvas splitY2)
  = let topHeight := Z.min splitY1 (cheight sourceCanvas) in
    extractOut sourceCanvas 0 0 80 topHeight "m_5"
    ++ extractOut sourceCanvas 560 0 80 topHeight "m_6"
    ++ extractOut sourceCanvas 80 0 240 topHeight "m_1"
    ++ extractOut sourceCanvas 320 0 240 topHeight "m_2"
    ++ middleOut sourceCanvas splitY2
    ++ m4Out sourceCanvas (Z.min splitY2 (cheight sourceCanvas)).
Proof.
  intros (u & out & Hrun). rewrite (resolved_execM _ _ _ Hrun).
  now apply sliceAll_resolved in Hrun.
Qed.

Lemma sliceAll_resolves sourceCanvas splitY2 :
  let topHeight := Z.min splitY1 (cheight sourceCanvas) in
  resolves (extract sourceCanvas 0 0 80 topHeight "m_5") ->
  resolves (extract sourceCanvas 560 0 80 topHeight "m_6") ->
  resolves (extract sourceCanvas 80 0 240 topHeight "m_1") ->
  resolves (extract sourceCanvas 320 0 240 topHeight "m_2") ->
  resolves (middle sourceCanvas splitY2) ->
  resolves (extractM4 sourceCanvas (Z.min splitY2 (cheight sourceCanvas))) ->
  resolves (sliceAll sourceCanvas splitY2).
Proof.
  cbv zeta. intros H5 H6 H1 H2 H3 H4.
  apply resolves_execM in H5, H6, H1, H2, H3, H4.
  rewrite sliceAll_parts. cbv zeta. exists tt. eexists.
  repeat (apply seq_resolves;
          [repeat apply appender_seq; auto using extract_appender,
             middle_appender, extractM4_appender
          |eassumption|]).
  exact H4.
Qed.

Lemma sliceAll_rejected sourceCanvas splitY2 msg :
  sliceAll sourceCanvas splitY2 [] = Rejected msg ->
  let topHeight := Z.min splitY1 (cheight sourceCanvas) in
  extract sourceCanvas 0 0 80 topHeight "m_5" [] = Rejected msg \/
  extract sourceCanvas 560 0 80 topHeight "m_6" [] = Rejected msg \/
  extract sourceCanvas 80 0 240 topHeight "m_1" [] = Rejected msg \/
  extract sourceCanvas 320 0 240 topHeight "m_2" [] = Rejected msg \/
  middle sourceCanvas splitY2 [] = Rejected msg \/
  extractM4 sourceCanvas (Z.min splitY2 (cheight sourceCanvas)) []
  = Rejected msg.
Proof.
  rewrite sliceAll_parts. cbv zeta. intros Hrun.
  repeat (apply seq_rejected in Hrun as [Hrun|Hrun];
          [tauto| |repeat apply appender_seq; auto using extract_appender,
                     middle_appender, extractM4_appender]).
  tauto.
Qed.

(** ** The order on names *)

Lemma string_compare_trans (s1 s2 s3 : string) :
  String.compare s1 s2 <> Gt -> String.compare s2 s3 <> Gt ->
  String.compare s1 s3 <> Gt.
Proof.
  revert s2 s3. induction s1 as [|a s1 IH]; intros [|b s2] [|c s3]; simpl;
    try congruence.
  unfold Ascii.compare.
  destruct (N.compare_spec (N_of_ascii a) (N_of_ascii b)) as [Hab|Hab|Hab];
    destruct (N.compare_spec (N_of_ascii b) (N_of_ascii c)) as [Hbc|Hbc|Hbc];
    destruct (N.compare_spec (N_of_ascii a) (N_of_ascii c)) as [Hac|Hac|Hac];
    try congruence; try lia; try (intros; discriminate).
  apply IH.
Qed.

Lemma string_leb_trans (s1 s2 s3 : string) :
  (s1 <=? s2)%string = true -> (s2 <=? s3)%string = true ->
  (s1 <=? s3)%string = true.
Proof.
  unfold String.leb. intros H12 H23.
  pose proof (string_compare_trans s1 s2 s3) as Ht.
  destruct (String.compare s1 s2); destruct (String.compare s2 s3);
    destruct (String.compare s1 s3); try reflexivity; try discriminate;
    exfalso; apply Ht; congruence.
Qed.

Lemma nameOrder_trans r1 r2 r3 :
  nameOrder r1 r2 -> nameOrder r2 r3 -> nameOrder r1 r3.
Proof. unfold nameOrder. apply string_leb_trans. Qed.

Lemma nameLe_false r1 r2 : nameLe r1 r2 = false -> nameOrder r2 r1.
Proof.
  unfold nameLe, nameOrder. intros Hf.
  destruct (String.leb_total (name r1) (name r2)) as [H|H]; congruence.
Qed.

(** ** The final sort *)

Lemma insertSlice_perm a l : Permutation (insertSlice a l) (a :: l).
Proof.
  induction l as [|b l IH]; simpl; [reflexivity|].
  destruct (nameLe b a); [|reflexivity].
  rewrite IH. apply perm_swap.
Qed.

Lemma sortSlices_acc_perm l : forall acc,
  Permutation (fold_left (fun acc a => insertSlice a acc) l acc) (l ++ acc).
Proof.
  induction l as [|a l IH]; intros acc; simpl; [reflexivity|].
  rewrite IH, insertSlice_perm. symmetry. apply Permutation_middle.
Qed.

Lemma sortSlices_perm l : Permutation (sortSlices l) l.
Proof.
  unfold sortSlices. rewrite sortSlices_acc_perm. now rewrite app_nil_r.
Qed.

Lemma insertSlice_sorted a l :
  StronglySorted nameOrder l -> StronglySorted nameOrder (insertSlice a l).
Proof.
  induction 1 as [|b l Hs IH Hb]; simpl.
  - constructor; constructor.
  - destruct (nameLe b a) eqn:Hba.
    + constructor; [exact IH|].
      apply (Permutation_Forall (x := a :: l));
        [symmetry; apply insertSlice_perm|].
      constructor; [exact Hba | exact Hb].
    + apply nameLe_false in Hba.
      constructor; [constructor; assumption|].
      constructor; [exact Hba|].
      eapply Forall_impl; [|exact Hb].
      intros c Hbc. eapply nameOrder_trans; eassumption.
Qed.

Lemma sortSlices_acc_sorted l : forall acc,
  StronglySorted nameOrder acc ->
  StronglySorted nameOrder (fold_left (fun acc a => insertSlice a acc) l acc).
Proof.
  induction l as [|a l IH]; intros acc Hacc; simpl; [exact Hacc|].
  apply IH, insertSlice_sorted, Hacc.
Qed.

Lemma sortSlices_sorted l : StronglySorted nameOrder (sortSlices l).
Proof. apply sortSlices_acc_sorted. constructor. Qed.

Lemma filter_perm (p : SliceResult P -> bool) l l' :
  Permutation l l' -> Permutation (filter p l) (filter p l').
Proof.
  induction 1 as [|a l l' _ IH|a b l|l l' l'' _ IH1 _ IH2]; simpl.
  - constructor.
  - destruct (p a); [now constructor | exact IH].
  - destruct (p a), (p b); try reflexivity. apply perm_swap.
  - now transitivity (filter p l').
Qed.


(** ** Pixels of the canvases that are encoded *)

Ltac decide_comparisons :=
  repeat match goal with
         | |- context [?a <=? ?b] => destruct (Z.leb_spec a b)
         | |- context [?a <? ?b] => destruct (Z.ltb_spec a b)
         end;
  simpl; try reflexivity; try lia.

Lemma regionCanvas_pixel sourceCanvas x0 y0 w h px py :
  0 <= px < w -> 0 <= py < h ->
  getPixel (regionCanvas sourceCanvas x0 y0 w h) px py
  = getPixel sourceCanvas (x0 + px) (y0 + py).
Proof.
  intros Hx Hy. unfold getPixel, regionCanvas, copyRect, blankCanvas, inside.
  cbn [cwidth cheight cpixel]. rewrite !Z.sub_0_r, !Z.add_0_l.
  decide_comparisons.
Qed.

Lemma m4Canvas_pixel sourceCanvas botStart px py :
  getPixel (m4Canvas sourceCanvas botStart) px py
  = if (0 <=? px) && (px <? 640) && (0 <=? py)
       && (py <? Z.min (cheight sourceCanvas - botStart) 480)
    then getPixel sourceCanvas px (botStart + py)
    else transparent.
Proof.
  unfold m4Canvas, m4Width, m4Height. cbv zeta.
  destruct (Z.ltb_spec 0 (cheight sourceCanvas - botStart)) as [Hav|Hav];
    unfold getPixel, copyRect, blankCanvas, inside;
    cbn [cwidth cheight cpixel]; rewrite ?Z.sub_0_r, ?Z.add_0_l;
    decide_comparisons.
Qed.


(** ** Outcomes of [processSlices] *)

Lemma processSlices_resolved sourceCanvas splitY2 :
  getContext2d sourceCanvas = true ->
  resolves (sliceAll sourceCanvas splitY2) ->
  processSlices sourceCanvas splitY2
  = Resolved (sortSlices (execM (sliceAll sourceCanvas splitY2))).
Proof.
  intros Hctx (u & out & Hrun). unfold processSlices, execM.
  now rewrite Hctx, Hrun.
Qed.

Lemma processSlices_inv sourceCanvas splitY2 l :
  processSlices sourceCanvas splitY2 = Resolved l ->
  getContext2d sourceCanvas = true /\
  resolves (sliceAll sourceCanvas splitY2) /\
  l = sortSlices (execM (sliceAll sourceCanvas splitY2)).
Proof.
  unfold processSlices, resolves, execM.
  destruct (getContext2d sourceCanvas); simpl; [|discriminate].
  destruct (sliceAll sourceCanvas splitY2 []) as [[u out]|msg];
    [|discriminate].
  intros [= <-]. split; [reflexivity|]. split; [|reflexivity].
  now exists u, out.
Qed.

(** A run on a source from which [drawImage] can draw resolves whatever
    [toBlob] hands to its callbacks, as long as it does not throw. *)
Lemma drawable_resolves sourceCanvas splitY2 :
  drawable sourceCanvas splitY2 ->
  regionsAnswered P sourceCanvas splitY2 ->
  (exists answer,
     toBlob (m4Canvas sourceCanvas (midEndOf sourceCanvas splitY2))
     = Resolved answer) ->
  resolves (sliceAll sourceCanvas splitY2).
Proof.
  intros [Hw Hh] Hregions Hm4.
  assert (Hu : unusable sourceCanvas = false
               \/ (cheight sourceCanvas = 0 /\ 0 <= splitY2)).
  { unfold unusable.
    destruct (Z.eqb_spec (cwidth sourceCanvas) 0) as [|_]; [contradiction|].
    destruct (Z.eqb_spec (cheight sourceCanvas) 0) as [Hz|_]; [|now left].
    right. split; [exact Hz|]. destruct Hh; [contradiction | assumption]. }
  assert (Hregion : forall n x0 y0 w h,
            In (n, x0, y0, w, h) (extractRegions sourceCanvas splitY2) ->
            resolves (extract sourceCanvas x0 y0 w h n)).
  { intros n x0 y0 w h Hin. apply extract_resolves.
    - destruct Hu as [Hu|[Hz Hs]]; [now left|]. right.
      unfold extractRegions, midHeightOf, midEndOf, splitY1 in Hin.
      simpl in Hin.
      destruct Hin as [Heq|[Heq|[Heq|[Heq|[Heq|[]]]]]];
        injection Heq; intros; subst; lia.
    - intros Hpos. now apply (Hregions n x0 y0 w h). }
  apply sliceAll_resolves; cbv zeta.
  - apply Hregion. simpl. tauto.
  - apply Hregion. simpl. tauto.
  - apply Hregion. simpl. tauto.
  - apply Hregion. simpl. tauto.
  - unfold middle. cbv zeta.
    destruct (0 <? Z.min splitY2 (cheight sourceCanvas) - splitY1);
      [|now exists tt, []].
    apply (Hregion "m_3"%string 0 splitY1 640
             (midHeightOf sourceCanvas splitY2)).
    simpl. tauto.
  - apply extractM4_resolves; [|exact Hm4].
    destruct Hu as [Hu|[Hz Hs]]; [now right|]. left. lia.
Qed.

Lemma served_answered sourceCanvas splitY2 :
  served P sourceCanvas splitY2 ->
  regionsAnswered P sourceCanvas splitY2 /\
  exists answer,
    toBlob (m4Canvas sourceCanvas (midEndOf sourceCanvas splitY2))
    = Resolved answer.
Proof.
  intros (_ & Hregions & _ & (b & Hb)). split.
  - intros n x0 y0 w h Hin Hpos.
    destruct (Hregions n x0 y0 w h Hin Hpos) as (_ & b' & Hb').
    now exists (Some b').
  - now exists (Some b).
Qed.

Lemma served_resolved sourceCanvas splitY2 :
  drawable sourceCanvas splitY2 ->
  served P sourceCanvas splitY2 ->
  processSlices sourceCanvas splitY2
  = Resolved (sortSlices (execM (sliceAll sourceCanvas splitY2))) /\
  resolves (sliceAll sourceCanvas splitY2).
Proof.
  intros Hdraw Hserved.
  destruct (served_answered _ _ Hserved) as [Hregions Hm4].
  pose proof (drawable_resolves _ _ Hdraw Hregions Hm4) as Hres.
  split; [|exact Hres]. apply processSlices_resolved; [|exact Hres].
  apply Hserved.
Qed.

Lemma processSlices_In sourceCanvas splitY2 l r :
  processSlices sourceCanvas splitY2 = Resolved l ->
  In r l ->
  let totalHeight := cheight sourceCanvas in
  let topHeight := Z.min splitY1 totalHeight in
  In r (extractOut sourceCanvas 0 0 80 topHeight "m_5") \/
  In r (extractOut sourceCanvas 560 0 80 topHeight "m_6") \/
  In r (extractOut sourceCanvas 80 0 240 topHeight "m_1") \/
  In r (extractOut sourceCanvas 320 0 240 topHeight "m_2") \/
  In r (middleOut sourceCanvas splitY2) \/
  In r (m4Out sourceCanvas (Z.min splitY2 totalHeight)).
Proof.
  intros Hrun Hin. apply processSlices_inv in Hrun as (_ & Hres & ->).
  apply (Permutation_in _ (sortSlices_perm _)) in Hin.
  rewrite (execM_sliceAll _ _ Hres) in Hin. cbv zeta in Hin.
  rewrite !in_app_iff in Hin. exact Hin.
Qed.

(** ** Selecting slices by identifier *)

Lemma filter_none (p : SliceResult P -> bool) l :
  (forall r, In r l -> p r = false) -> filter p l = [].
Proof.
  induction l as [|a l IH]; simpl; intros Hall; [reflexivity|].
  rewrite (Hall a) by now left. apply IH. intros r Hr. apply Hall. now right.
Qed.

Lemma hasId_other m n r : id r = n -> n <> m -> hasId m r = false.
Proof. unfold hasId. intros -> Hne. now apply String.eqb_neq. Qed.

Lemma filter_id_extractOut m sourceCanvas x0 y0 w h n :
  n <> m -> filter (hasId m) (extractOut sourceCanvas x0 y0 w h n) = [].
Proof.
  intros Hne. apply filter_none. intros r Hr.
  apply extractOut_inv in Hr. apply hasId_other with n; intuition.
Qed.

Lemma filter_id_middleOut m sourceCanvas splitY2 :
  "m_3"%string <> m -> filter (hasId m) (middleOut sourceCanvas splitY2) = [].
Proof.
  intros Hne. apply filter_none. intros r Hr.
  apply middleOut_inv in Hr. apply hasId_other with "m_3"%string; intuition.
Qed.

Lemma filter_id_m4Out m sourceCanvas botStart :
  "m_4"%string <> m -> filter (hasId m) (m4Out sourceCanvas botStart) = [].
Proof.
  intros Hne. apply filter_none. intros r Hr.
  apply m4Out_inv in Hr. apply hasId_other with "m_4"%string; intuition.
Qed.

Lemma filter_sorted_single (p : SliceResult P -> bool) l r :
  filter p l = [r] -> filter p (sortSlices l) = [r].
Proof.
  intros Hl. apply Permutation_length_1_inv. rewrite <- Hl.
  apply filter_perm. symmetry. apply sortSlices_perm.
Qed.

Lemma filter_sorted_none (p : SliceResult P -> bool) l :
  filter p l = [] -> filter p (sortSlices l) = [].
Proof.
  intros Hl. apply Permutation_nil. rewrite <- Hl.
  apply filter_perm. symmetry. apply sortSlices_perm.
Qed.


(** ** The sort is stable: it commutes with every selection *)

Lemma insertSlice_first a l :
  Forall (fun c => nameLe c a = false) l -> insertSlice a l = a :: l.
Proof.
  destruct l as [|b l]; simpl; [reflexivity|].
  intros Hall. inversion Hall as [|? ? Hb _]; subst. now rewrite Hb.
Qed.

Lemma filter_insertSlice (p : SliceResult P -> bool) a l :
  StronglySorted nameOrder l ->
  filter p (insertSlice a l)
  = if p a then insertSlice a (filter p l) else filter p l.
Proof.
  induction 1 as [|b l Hs IH Hb]; simpl.
  - now destruct (p a).
  - destruct (nameLe b a) eqn:Hba; simpl.
    + rewrite IH. destruct (p b), (p a); simpl; rewrite ?Hba; reflexivity.
    + assert (Hlate : Forall (fun c => nameLe c a = false) (b :: l)).
      { constructor; [exact Hba|].
        eapply Forall_impl; [|exact Hb]. intros c Hbc.
        destruct (nameLe c a) eqn:Hca; [|reflexivity].
        unfold nameLe in Hba.
        rewrite (string_leb_trans _ _ _ Hbc Hca) in Hba. discriminate. }
      destruct (p a); [|reflexivity].
      change (a :: filter p (b :: l) = insertSlice a (filter p (b :: l))).
      symmetry. apply insertSlice_first.
      apply Forall_forall. intros c Hc. apply filter_In in Hc as [Hc _].
      revert c Hc. apply Forall_forall. exact Hlate.
Qed.

Lemma filter_sortSlices_acc (p : SliceResult P -> bool) l : forall acc,
  StronglySorted nameOrder acc ->
  filter p (fold_left (fun acc a => insertSlice a acc) l acc)
  = fold_left (fun acc a => insertSlice a acc) (filter p l) (filter p acc).
Proof.
  induction l as [|a l IH]; intros acc Hacc; simpl; [reflexivity|].
  rewrite IH by now apply insertSlice_sorted.
  rewrite filter_insertSlice by exact Hacc.
  now destruct (p a).
Qed.

Lemma filter_sortSlices (p : SliceResult P -> bool) l :
  filter p (sortSlices l) = sortSlices (filter p l).
Proof. unfold sortSlices. apply filter_sortSlices_acc. constructor. Qed.


(** ** Sizes of the slices returned *)

Lemma slices_positive sourceCanvas splitY2 l r :
  processSlices sourceCanvas splitY2 = Resolved l ->
  In r l -> 0 < width r /\ 0 < height r.
Proof.
  intros Hrun Hin.
  destruct (processSlices_In _ _ _ _ Hrun Hin) as [H|[H|[H|[H|[H|H]]]]];
    try (apply extractOut_inv in H; intuition lia).
  - apply middleOut_inv in H. intuition lia.
  - apply m4Out_inv in H. intuition lia.
Qed.

(** ** One slice at most for each identifier *)

Lemma filter_all (p : SliceResult P -> bool) l :
  (forall r, In r l -> p r = true) -> filter p l = l.
Proof.
  induction l as [|a l IH]; simpl; intros Hall; [reflexivity|].
  rewrite (Hall a) by now left. f_equal. apply IH.
  intros r Hr. apply Hall. now right.
Qed.

Lemma filter_id_extractOut_eq m sourceCanvas x0 y0 w h n :
  filter (hasId m) (extractOut sourceCanvas x0 y0 w h n)
  = if (n =? m)%string then extractOut sourceCanvas x0 y0 w h n else [].
Proof.
  destruct (String.eqb_spec n m) as [<-|Hne].
  - apply filter_all. intros r Hr. apply extractOut_inv in Hr.
    destruct Hr as (_ & _ & _ & Hid & _). unfold hasId. rewrite Hid.
    apply String.eqb_refl.
  - now apply filter_id_extractOut.
Qed.

Lemma extractOut_short sourceCanvas x0 y0 w h n :
  (List.length (extractOut (P := P) sourceCanvas x0 y0 w h n) <= 1)%nat.
Proof.
  destruct (extractOut sourceCanvas x0 y0 w h n) as [|r rest] eqn:Hout;
    [simpl; lia|].
  assert (Hin : In r (extractOut sourceCanvas x0 y0 w h n))
    by (rewrite Hout; now left).
  apply extractOut_inv in Hin. destruct Hin as (Hone & _).
  rewrite Hout in Hone. injection Hone as ->. simpl. lia.
Qed.

Lemma m4Out_short sourceCanvas botStart :
  (List.length (m4Out (P := P) sourceCanvas botStart) <= 1)%nat.
Proof.
  destruct (m4Out sourceCanvas botStart) as [|r rest] eqn:Hout;
    [simpl; lia|].
  assert (Hin : In r (m4Out sourceCanvas botStart))
    by (rewrite Hout; now left).
  apply m4Out_inv in Hin. destruct Hin as (Hone & _).
  rewrite Hout in Hone. injection Hone as ->. simpl. lia.
Qed.

Lemma filter_sorted_short (p : SliceResult P -> bool) l :
  (List.length (filter p l) <= 1)%nat -> filter p (sortSlices l) = filter p l.
Proof.
  destruct (filter p l) as [|r [|r' rest]] eqn:Hl; simpl; intros Hlen.
  - now apply filter_sorted_none.
  - now apply filter_sorted_single.
  - lia.
Qed.

Lemma middleOut_region sourceCanvas splitY2 :
  middleOut (P := P) sourceCanvas splitY2
  = extractOut sourceCanvas 0 splitY1 640 (midHeightOf sourceCanvas splitY2)
      "m_3".
Proof.
  unfold middleOut, midHeightOf, midEndOf. cbv zeta.
  destruct (Z.ltb_spec 0 (Z.min splitY2 (cheight sourceCanvas) - splitY1));
    [reflexivity|].
  now rewrite extractOut_skip by (left; assumption).
Qed.

Lemma region_unsorted sourceCanvas splitY2 n x0 y0 w h :
  resolves (sliceAll sourceCanvas splitY2) ->
  In (n, x0, y0, w, h) (extractRegions sourceCanvas splitY2) ->
  filter (hasId n) (execM (sliceAll sourceCanvas splitY2))
  = extractOut sourceCanvas x0 y0 w h n.
Proof.
  intros Hres Hin. rewrite (execM_sliceAll _ _ Hres). cbv zeta.
  rewrite !filter_app, middleOut_region.
  simpl in Hin.
  destruct Hin as [Heq|[Heq|[Heq|[Heq|[Heq|[]]]]]];
    injection Heq as <- <- <- <- <-;
    rewrite filter_id_m4Out by discriminate;
    rewrite !filter_id_extractOut_eq; simpl; rewrite ?app_nil_r;
    reflexivity.
Qed.

Lemma region_selected sourceCanvas splitY2 n x0 y0 w h :
  resolves (sliceAll sourceCanvas splitY2) ->
  In (n, x0, y0, w, h) (extractRegions sourceCanvas splitY2) ->
  filter (hasId n) (sortSlices (execM (sliceAll sourceCanvas splitY2)))
  = extractOut sourceCanvas x0 y0 w h n.
Proof.
  intros Hres Hin. rewrite <- (region_unsorted _ _ _ _ _ _ _ Hres Hin).
  apply filter_sorted_short. rewrite (region_unsorted _ _ _ _ _ _ _ Hres Hin).
  apply extractOut_short.
Qed.

Lemma m3_selected sourceCanvas splitY2 :
  resolves (sliceAll sourceCanvas splitY2) ->
  filter (hasId "m_3") (sortSlices (execM (sliceAll sourceCanvas splitY2)))
  = middleOut sourceCanvas splitY2.
Proof.
  intros Hres. rewrite middleOut_region.
  apply (region_selected _ _ _ _ _ _ _ Hres). simpl. tauto.
Qed.

Lemma m4_unsorted sourceCanvas splitY2 :
  resolves (sliceAll sourceCanvas splitY2) ->
  filter (hasId "m_4") (execM (sliceAll sourceCanvas splitY2))
  = m4Out sourceCanvas (midEndOf sourceCanvas splitY2).
Proof.
  intros Hres. rewrite (execM_sliceAll _ _ Hres). cbv zeta.
  rewrite !filter_app, !filter_id_extractOut, filter_id_middleOut
    by discriminate.
  simpl. apply filter_all. intros r Hr. apply m4Out_inv in Hr.
  destruct Hr as (_ & Hid & _). unfold hasId. now rewrite Hid.
Qed.

Lemma m4_selected sourceCanvas splitY2 :
  resolves (sliceAll sourceCanvas splitY2) ->
  filter (hasId "m_4") (sortSlices (execM (sliceAll sourceCanvas splitY2)))
  = m4Out sourceCanvas (midEndOf sourceCanvas splitY2).
Proof.
  intros Hres. rewrite <- (m4_unsorted _ _ Hres).
  apply filter_sorted_short. rewrite (m4_unsorted _ _ Hres).
  apply m4Out_short.
Qed.

(** ** Sources [drawImage] can draw from *)

Lemma drawable_cases sourceCanvas splitY2 :
  drawable sourceCanvas splitY2 ->
  unusable sourceCanvas = false \/
  (cheight sourceCanvas = 0 /\ 0 <= splitY2).
Proof.
  intros [Hw Hh]. unfold unusable.
  destruct (Z.eqb_spec (cwidth sourceCanvas) 0) as [|_]; [contradiction|].
  destruct (Z.eqb_spec (cheight sourceCanvas) 0) as [Hz|_]; [|now left].
  right. split; [exact Hz|]. destruct Hh; [contradiction | assumption].
Qed.

Lemma drawable_m4 sourceCanvas splitY2 :
  drawable sourceCanvas splitY2 ->
  cheight sourceCanvas - midEndOf sourceCanvas splitY2 <= 0 \/
  unusable sourceCanvas = false.
Proof.
  intros Hdraw. destruct (drawable_cases _ _ Hdraw) as [Hu|[Hz Hs]];
    [now right|].
  left. unfold midEndOf. lia.
Qed.

Lemma served_extractOut sourceCanvas splitY2 n x0 y0 w h :
  served P sourceCanvas splitY2 ->
  unusable sourceCanvas = false ->
  In (n, x0, y0, w, h) (extractRegions sourceCanvas splitY2) ->
  0 < w -> 0 < h ->
  exists b,
    toBlob (regionCanvas sourceCanvas x0 y0 w h) = Resolved (Some b) /\
    extractOut sourceCanvas x0 y0 w h n
    = [mkSlice n (n ++ ".png") b (createObjectURL b) w h x0 y0].
Proof.
  intros (_ & Hregions & _) Hu Hin Hw Hh.
  destruct (Hregions n x0 y0 w h Hin Hh) as (Hctx & b & Hb).
  exists b. split; [exact Hb|]. now apply extractOut_emits.
Qed.

Lemma served_m4Out sourceCanvas splitY2 :
  served P sourceCanvas splitY2 ->
  drawable sourceCanvas splitY2 ->
  exists b,
    toBlob (m4Canvas sourceCanvas (midEndOf sourceCanvas splitY2))
    = Resolved (Some b) /\
    m4Out sourceCanvas (midEndOf sourceCanvas splitY2)
    = [mkSlice "m_4" "m_4.png" b (createObjectURL b) m4Width m4Height
               0 (midEndOf sourceCanvas splitY2)].
Proof.
  intros (_ & _ & Hctx & b & Hb) Hdraw.
  exists b. split; [exact Hb|].
  apply m4Out_emits; [exact Hctx | now apply drawable_m4 | exact Hb].
Qed.

(** ** The bottom region *)

(** Claim C1, as the code has it.  For a source canvas that has a width, of
    height [h], and a [splitY2] such that [h] is not 0 or [splitY2 >= 0], on
    a platform that grants the context of the source and of the 640 x 480
    canvas, whose [toBlob] does not throw for the regions and encodes that
    canvas, [processSlices] returns exactly one slice [m_4]; it measures
    640 x 480 and carries the encoding of a 640 x 480 canvas.  With
    [availableHeight = h - min(splitY2, h)] positive, the first
    [min(availableHeight, 480)] rows of that canvas are the rows of the source
    from [min(splitY2, h)] on and the rows below are transparent; with
    [availableHeight <= 0] the whole canvas is transparent. *)
Theorem m4_fixed_size_padded sourceCanvas splitY2 (b : Blob) :
  let botStart := Z.min splitY2 (cheight sourceCanvas) in
  let availableHeight := cheight sourceCanvas - botStart in
  let c4 := m4Canvas sourceCanvas botStart in
  drawable sourceCanvas splitY2 ->
  getContext2d sourceCanvas = true ->
  regionsAnswered P sourceCanvas splitY2 ->
  getContext2d (blankCanvas 640 480) = true ->
  toBlob c4 = Resolved (Some b) ->
  exists l r,
    processSlices sourceCanvas splitY2 = Resolved l /\
    filter (hasId "m_4") l = [r] /\
    name r = "m_4.png"%string /\ width r = 640 /\ height r = 480 /\
    blob r = b /\ cwidth c4 = 640 /\ cheight c4 = 480 /\
    (0 < availableHeight ->
     forall px py, 0 <= px < 640 -> 0 <= py < 480 ->
       getPixel c4 px py
       = if py <? Z.min availableHeight 480
         then getPixel sourceCanvas px (botStart + py)
         else transparent) /\
    (availableHeight <= 0 ->
     forall px py, getPixel c4 px py = transparent).
Proof.
  intros botStart availableHeight c4 Hdraw Hsrc Hregions Hctx Hblob.
  subst botStart availableHeight c4.
  assert (Hres : resolves (sliceAll sourceCanvas splitY2)).
  { apply drawable_resolves; [assumption | assumption|].
    now exists (Some b). }
  eexists. eexists. split; [now apply processSlices_resolved|].
  split.
  { rewrite (m4_selected _ _ Hres).
    apply (m4Out_emits _ _ b Hctx); [|exact Hblob].
    now apply drawable_m4. }
  repeat (split; [reflexivity|]).
  split; [|split].
  - unfold m4Canvas. cbv zeta.
    now destruct (0 <? _).
  - unfold m4Canvas. cbv zeta.
    now destruct (0 <? _).
  - split.
    + intros Hav px py Hx Hy. rewrite m4Canvas_pixel. decide_comparisons.
    + intros Hav px py. rewrite m4Canvas_pixel. decide_comparisons.
Qed.

(** ** The top band *)

Lemma topGroup_middleOut sourceCanvas splitY2 :
  filter topGroup (middleOut sourceCanvas splitY2) = [].
Proof.
  apply filter_none. intros r Hr. apply middleOut_inv in Hr.
  destruct Hr as (_ & _ & Hid & _). unfold topGroup, hasId. now rewrite Hid.
Qed.

Lemma topGroup_m4Out sourceCanvas botStart :
  filter topGroup (m4Out sourceCanvas botStart) = [].
Proof.
  apply filter_none. intros r Hr. apply m4Out_inv in Hr.
  destruct Hr as (_ & Hid & _). unfold topGroup, hasId. now rewrite Hid.
Qed.

Lemma top_group_present sourceCanvas splitY2 :
  cwidth sourceCanvas <> 0 ->
  served P sourceCanvas splitY2 -> 0 < cheight sourceCanvas ->
  resolves (sliceAll sourceCanvas splitY2) /\
  map descriptor
      (filter topGroup (sortSlices (execM (sliceAll sourceCanvas splitY2))))
  = topRow (Z.min splitY1 (cheight sourceCanvas)).
Proof.
  intros Hw Hserved Hh.
  assert (Hdraw : drawable sourceCanvas splitY2) by (split; [assumption|lia]).
  destruct (served_resolved _ _ Hdraw Hserved) as [_ Hres].
  split; [exact Hres|].
  destruct (drawable_cases _ _ Hdraw) as [Hu|[Hz _]]; [|lia].
  rewrite filter_sortSlices, (execM_sliceAll _ _ Hres). cbv zeta.
  assert (Hth : 0 < Z.min splitY1 (cheight sourceCanvas))
    by (unfold splitY1; lia).
  rewrite !filter_app, topGroup_middleOut, topGroup_m4Out.
  set (th := Z.min splitY1 (cheight sourceCanvas)) in *.
  assert (Hin : forall n x0 w,
            In (n, x0, w) [("m_5"%string, 0, 80); ("m_6"%string, 560, 80);
                           ("m_1"%string, 80, 240); ("m_2"%string, 320, 240)]
            -> In (n, x0, 0, w, th) (extractRegions sourceCanvas splitY2) /\
               0 < w).
  { intros n x0 w Hn. simpl in Hn. unfold extractRegions. cbv zeta.
    fold th. simpl.
    destruct Hn as [Heq|[Heq|[Heq|[Heq|[]]]]]; injection Heq as <- <- <-;
      split; try lia; tauto. }
  destruct (served_extractOut sourceCanvas splitY2 "m_5" 0 0 80 th Hserved Hu)
    as (b5 & _ & ->); [apply Hin; simpl; tauto | lia | exact Hth|].
  destruct (served_extractOut sourceCanvas splitY2 "m_6" 560 0 80 th Hserved
              Hu) as (b6 & _ & ->);
    [apply Hin; simpl; tauto | lia | exact Hth|].
  destruct (served_extractOut sourceCanvas splitY2 "m_1" 80 0 240 th Hserved
              Hu) as (b1 & _ & ->);
    [apply Hin; simpl; tauto | lia | exact Hth|].
  destruct (served_extractOut sourceCanvas splitY2 "m_2" 320 0 240 th Hserved
              Hu) as (b2 & _ & ->);
    [apply Hin; simpl; tauto | lia | exact Hth|].
  reflexivity.
Qed.

Lemma top_group_absent sourceCanvas splitY2 :
  resolves (sliceAll sourceCanvas splitY2) ->
  cheight sourceCanvas <= 0 ->
  filter topGroup (sortSlices (execM (sliceAll sourceCanvas splitY2))) = [].
Proof.
  intros Hres Hh. rewrite filter_sortSlices, (execM_sliceAll _ _ Hres).
  cbv zeta. rewrite !extractOut_skip by (left; unfold splitY1; lia).
  simpl. now rewrite filter_app, topGroup_middleOut, topGroup_m4Out.
Qed.

(** Claim C3.  For a source canvas that has a width, of height [h], and any
    [splitY2], on a platform that serves the run: if [h >= 640] the run
    resolves and the slices of the top band are exactly m_1 (x = 80, width
    240), m_2 (x = 320, width 240), m_5 (x = 0, width 80) and m_6 (x = 560,
    width 80), all at y = 0 and of height 640; if [0 < h < 640] the run
    resolves and they are the same four with height [h]; if [h <= 0] no
    result holds a slice of the top band. *)
Theorem top_group_heights sourceCanvas splitY2 :
  cwidth sourceCanvas <> 0 ->
  served P sourceCanvas splitY2 ->
  let h := cheight sourceCanvas in
  (640 <= h ->
   exists l, processSlices sourceCanvas splitY2 = Resolved l /\
             map descriptor (filter topGroup l) = topRow 640) /\
  (0 < h < 640 ->
   exists l, processSlices sourceCanvas splitY2 = Resolved l /\
             map descriptor (filter topGroup l) = topRow h) /\
  (h <= 0 ->
   forall l, processSlices sourceCanvas splitY2 = Resolved l ->
             filter topGroup l = []).
Proof.
  intros Hw Hserved h.
  assert (Hpos : 0 < h ->
            exists l, processSlices sourceCanvas splitY2 = Resolved l /\
                      map descriptor (filter topGroup l)
                      = topRow (Z.min splitY1 h)).
  { intros Hh. destruct (top_group_present _ _ Hw Hserved Hh) as [Hres Htop].
    eexists. split; [|exact Htop].
    apply processSlices_resolved; [apply Hserved | exact Hres]. }
  split; [|split]; intros Hh.
  - destruct Hpos as (l & Hrun & Htop); [lia|]. exists l.
    split; [exact Hrun|]. rewrite Htop. f_equal. unfold splitY1. lia.
  - destruct Hpos as (l & Hrun & Htop); [lia|]. exists l.
    split; [exact Hrun|]. rewrite Htop. f_equal. unfold splitY1. lia.
  - intros l Hrun. apply processSlices_inv in Hrun as (_ & Hres & ->).
    now apply top_group_absent.
Qed.

(** ** The middle region *)

(** Claim C4.  For a source canvas that has a width, of height [h], and any
    [splitY2], on a platform that serves the run, the slice m_3 is returned
    if and only if [midHeight = min(splitY2, h) - 640] is strictly positive:
    with [midHeight > 0] the run resolves with exactly one slice of that
    name, which records the rectangle x = 0, y = 640, width 640, height
    [midHeight] and encodes a canvas that is a pixel-for-pixel copy of that
    rectangle of the source; with [midHeight <= 0] no result holds an m_3.
    When [splitY2 < 640], [midHeight] is negative, m_3 is left out and no
    slice of a result has a non-positive size. *)
Theorem m3_iff_positive_mid sourceCanvas splitY2 :
  cwidth sourceCanvas <> 0 ->
  served P sourceCanvas splitY2 ->
  let midHeight := Z.min splitY2 (cheight sourceCanvas) - 640 in
  let c3 := regionCanvas sourceCanvas 0 640 640 midHeight in
  (0 < midHeight ->
   exists l r,
     processSlices sourceCanvas splitY2 = Resolved l /\
     filter (hasId "m_3") l = [r] /\
     descriptor r = ("m_3"%string, 0, 640, 640, midHeight) /\
     toBlob c3 = Resolved (Some (blob r)) /\
     cwidth c3 = 640 /\ cheight c3 = midHeight /\
     forall px py, 0 <= px < 640 -> 0 <= py < midHeight ->
       getPixel c3 px py = getPixel sourceCanvas px (640 + py)) /\
  (forall l,
     processSlices sourceCanvas splitY2 = Resolved l ->
     (filter (hasId "m_3") l <> [] <-> 0 < midHeight) /\
     (splitY2 < 640 ->
      midHeight < 0 /\ filter (hasId "m_3") l = [] /\
      Forall (fun r => 0 < width r /\ 0 < height r) l)) /\
  (cheight sourceCanvas <> 0 \/ 0 <= splitY2 ->
   exists l, processSlices sourceCanvas splitY2 = Resolved l).
Proof.
  intros Hw Hserved midHeight c3.
  assert (Hruns : cheight sourceCanvas <> 0 \/ 0 <= splitY2 ->
            resolves (sliceAll sourceCanvas splitY2) /\
            processSlices sourceCanvas splitY2
            = Resolved (sortSlices (execM (sliceAll sourceCanvas splitY2)))).
  { intros Hh. destruct (served_resolved sourceCanvas splitY2) as [Hrun Hres];
      [now split | assumption | now split]. }
  split; [|split].
  - intros Hmid. destruct Hruns as [Hres Hrun]; [subst midHeight; lia|].
    assert (Hu : unusable sourceCanvas = false).
    { destruct (drawable_cases sourceCanvas splitY2) as [Hu|[Hz _]];
        [split; [assumption|subst midHeight; lia] | exact Hu|].
      subst midHeight. lia. }
    destruct (served_extractOut sourceCanvas splitY2 "m_3" 0 splitY1 640
                midHeight Hserved Hu) as (b & Hb & Hout);
      [simpl; tauto | lia | exact Hmid|].
    eexists. eexists. split; [exact Hrun|].
    rewrite (m3_selected _ _ Hres), middleOut_region.
    change (midHeightOf sourceCanvas splitY2) with midHeight. rewrite Hout.
    split; [reflexivity|]. split; [reflexivity|]. split; [exact Hb|].
    split; [reflexivity|]. split; [reflexivity|].
    intros px py Hx Hy. unfold c3. rewrite regionCanvas_pixel by assumption.
    reflexivity.
  - intros l Hrun. pose proof Hrun as Hinv.
    apply processSlices_inv in Hinv as (_ & Hres & ->).
    rewrite (m3_selected _ _ Hres).
    assert (Hnone : midHeight <= 0 -> middleOut sourceCanvas splitY2 = []).
    { intros Hle. rewrite middleOut_region. apply extractOut_skip. left.
      exact Hle. }
    split.
    + split.
      * intros Hsome.
        destruct (middleOut sourceCanvas splitY2) as [|r rest] eqn:Hout;
          [contradiction|].
        assert (Hin : In r (middleOut sourceCanvas splitY2))
          by (rewrite Hout; now left).
        apply middleOut_inv in Hin. cbv zeta in Hin.
        unfold splitY1 in Hin. subst midHeight. intuition.
      * intros Hmid.
        assert (Hu : unusable sourceCanvas = false).
        { destruct (drawable_cases sourceCanvas splitY2) as [Hu|[Hz _]];
            [split; [assumption|subst midHeight; lia] | exact Hu|].
          subst midHeight. lia. }
        destruct (served_extractOut sourceCanvas splitY2 "m_3" 0 splitY1 640
                    midHeight Hserved Hu) as (b & Hb & Hout);
          [simpl; tauto | lia | exact Hmid|].
        rewrite middleOut_region.
        change (midHeightOf sourceCanvas splitY2) with midHeight.
        rewrite Hout. discriminate.
    + intros Hs. split; [subst midHeight; lia|].
      split; [apply Hnone; subst midHeight; lia|].
      apply Forall_forall. intros r Hr. eapply slices_positive; eassumption.
  - intros Hh. destruct (Hruns Hh) as [_ Hrun]. eexists. exact Hrun.
Qed.

(** ** The order of the result *)

(** Claim C7.  The list [processSlices] returns is sorted by the name
    ["<id>.png"] of the slices, in the lexicographic order of their
    characters, and it is so whatever the order in which the slices were
    appended to the array: any rearrangement of the array is sorted into a
    list that is ordered by name. *)
Theorem result_sorted_by_name sourceCanvas splitY2 l :
  processSlices sourceCanvas splitY2 = Resolved l ->
  StronglySorted nameOrder l /\
  Forall (fun r => name r = (id r ++ ".png")%string) l /\
  forall pushed,
    Permutation pushed (execM (sliceAll sourceCanvas splitY2)) ->
    StronglySorted nameOrder (sortSlices pushed) /\
    Permutation (sortSlices pushed) l.
Proof.
  intros Hrun. pose proof Hrun as Hinv.
  apply processSlices_inv in Hinv as (_ & _ & ->).
  split; [apply sortSlices_sorted|]. split.
  - apply Forall_forall. intros r Hr.
    destruct (processSlices_In _ _ _ _ Hrun Hr) as [H|[H|[H|[H|[H|H]]]]];
      try (apply extractOut_inv in H;
           destruct H as (_ & _ & _ & -> & -> & _); reflexivity).
    + apply middleOut_inv in H. destruct H as (_ & _ & -> & -> & _).
      reflexivity.
    + apply m4Out_inv in H. destruct H as (_ & -> & -> & _). reflexivity.
  - intros pushed Hperm. split; [apply sortSlices_sorted|].
    rewrite !sortSlices_perm. exact Hperm.
Qed.

(** Claim C8.  Every slice [processSlices] returns has a positive width and
    a positive height: a region whose height is not positive contributes no
    slice (none of the top band when the source has no rows, no m_3 when
    [min(splitY2, height) <= 640]), whereas the slice m_4 is in every result
    of a platform that grants the context of the 640 x 480 canvas and encodes
    it, exactly once and measuring 640 x 480, whatever rows of the source are
    available to it, none included. *)
Theorem slices_have_positive_area sourceCanvas splitY2 l :
  processSlices sourceCanvas splitY2 = Resolved l ->
  Forall (fun r => 0 < width r /\ 0 < height r) l /\
  (cheight sourceCanvas <= 0 -> filter topGroup l = []) /\
  (Z.min splitY2 (cheight sourceCanvas) - 640 <= 0 ->
   filter (hasId "m_3") l = []) /\
  (getContext2d (blankCanvas 640 480) = true ->
   forall b,
     toBlob (m4Canvas sourceCanvas (midEndOf sourceCanvas splitY2))
     = Resolved (Some b) ->
     exists r, filter (hasId "m_4") l = [r] /\
               width r = 640 /\ height r = 480 /\ blob r = b /\
               y r = midEndOf sourceCanvas splitY2) /\
  (forall r, In r l -> id r = "m_4"%string ->
             width r = 640 /\ height r = 480).
Proof.
  intros Hrun. pose proof Hrun as Hinv.
  apply processSlices_inv in Hinv as (_ & Hres & Hl).
  split; [|split; [|split; [|split]]].
  - apply Forall_forall. intros r Hr. eapply slices_positive; eassumption.
  - intros Hh. subst l. now apply top_group_absent.
  - intros Hmid. subst l. rewrite (m3_selected _ _ Hres), middleOut_region.
    apply extractOut_skip. left. unfold midHeightOf, midEndOf, splitY1. lia.
  - intros Hctx b Hb. subst l. rewrite (m4_selected _ _ Hres).
    assert (Hok : cheight sourceCanvas - midEndOf sourceCanvas splitY2 <= 0
                  \/ unusable sourceCanvas = false).
    { destruct (unusable sourceCanvas) eqn:Hu; [|now right].
      destruct (Z_le_gt_dec
                  (cheight sourceCanvas - midEndOf sourceCanvas splitY2) 0)
        as [Hle|Hgt]; [now left|].
      exfalso. destruct Hres as (u & out & Hall).
      assert (Hm4 : extractM4 sourceCanvas
                      (Z.min splitY2 (cheight sourceCanvas)) []
                    = Rejected "InvalidStateError").
      { apply extractM4_throws; [exact Hctx | unfold midEndOf in Hgt; lia
                                 | exact Hu]. }
      rewrite sliceAll_parts in Hall. cbv zeta in Hall.
      repeat (apply seq_resolved in Hall as (? & ? & _ & Hall & _);
              [|repeat apply appender_seq; auto using extract_appender,
                  middle_appender, extractM4_appender]).
      rewrite Hm4 in Hall. discriminate. }
    rewrite (m4Out_emits _ _ b Hctx Hok Hb).
    eexists. split; [reflexivity|]. repeat split; reflexivity.
  - intros r Hr Hid.
    destruct (processSlices_In _ _ _ _ Hrun Hr) as [H|[H|[H|[H|[H|H]]]]];
      try (apply extractOut_inv in H;
           destruct H as (_ & _ & _ & Hn & _); rewrite Hid in Hn;
           discriminate).
    + apply middleOut_inv in H. destruct H as (_ & _ & Hn & _).
      rewrite Hid in Hn. discriminate.
    + apply m4Out_inv in H. intuition.
Qed.

(** ** Regions the encoder gives up on *)

Lemma pieces_resolve sourceCanvas splitY2 :
  resolves (sliceAll sourceCanvas splitY2) ->
  (forall n x0 y0 w h,
     In (n, x0, y0, w, h) (extractRegions sourceCanvas splitY2) ->
     resolves (extract sourceCanvas x0 y0 w h n)) /\
  resolves (extractM4 sourceCanvas (midEndOf sourceCanvas splitY2)).
Proof.
  intros (u & out & Hall). rewrite sliceAll_parts in Hall. cbv zeta in Hall.
  apply seq_resolved in Hall as (o5 & t5 & H5 & Hall & _);
    [|repeat apply appender_seq; auto using extract_appender,
        middle_appender, extractM4_appender].
  apply seq_resolved in Hall as (o6 & t6 & H6 & Hall & _);
    [|repeat apply appender_seq; auto using extract_appender,
        middle_appender, extractM4_appender].
  apply seq_resolved in Hall as (o1 & t1 & H1 & Hall & _);
    [|repeat apply appender_seq; auto using extract_appender,
        middle_appender, extractM4_appender].
  apply seq_resolved in Hall as (o2 & t2 & H2 & Hall & _);
    [|repeat apply appender_seq; auto using extract_appender,
        middle_appender, extractM4_appender].
  apply seq_resolved in Hall as (o3 & o4 & H3 & H4 & _);
    [|apply extractM4_appender].
  split; [|now exists tt, o4].
  intros n x0 y0 w h Hin. unfold extractRegions in Hin. cbv zeta in Hin.
  simpl in Hin.
  destruct Hin as [Heq|[Heq|[Heq|[Heq|[Heq|[]]]]]];
    injection Heq as <- <- <- <- <-;
    try (eexists; eexists; eassumption).
  unfold middle in H3. cbv zeta in H3. unfold midHeightOf, midEndOf.
  destruct (Z.ltb_spec 0 (Z.min splitY2 (cheight sourceCanvas) - splitY1))
    as [Hmid|Hmid]; [eexists; eexists; eassumption|].
  exists tt, []. apply extract_skips. now left.
Qed.

Lemma resolved_drew sourceCanvas x0 y0 w h n :
  resolves (extract sourceCanvas x0 y0 w h n) ->
  0 < w -> 0 < h -> getContext2d (blankCanvas w h) = true ->
  unusable sourceCanvas = false.
Proof.
  intros (u & out & Hrun) Hw Hh Hctx.
  destruct (unusable sourceCanvas) eqn:Hu; [|reflexivity].
  rewrite (extract_throws _ x0 y0 _ _ n Hw Hh Hctx Hu) in Hrun. discriminate.
Qed.

Lemma resolved_drew_m4 sourceCanvas botStart :
  resolves (extractM4 sourceCanvas botStart) ->
  getContext2d (blankCanvas m4Width m4Height) = true ->
  cheight sourceCanvas - botStart <= 0 \/ unusable sourceCanvas = false.
Proof.
  intros (u & out & Hrun) Hctx.
  destruct (unusable sourceCanvas) eqn:Hu; [|now right].
  destruct (Z_le_gt_dec (cheight sourceCanvas - botStart) 0) as [Hle|Hgt];
    [now left|].
  assert (Hav : 0 < cheight sourceCanvas - botStart) by lia.
  rewrite (extractM4_throws _ _ Hctx Hav Hu) in Hrun. discriminate.
Qed.

(** Claim C2, as the code has it.  No encoding failure is raised.  In every
    result of [processSlices], a region for which [toBlob] hands [null] to
    its callback is left out without any report: no slice bears its
    identifier; a region of positive size whose canvas obtains a context and
    is encoded appears exactly once, with the blob the encoder produced,
    whatever happens to the other regions.  A [null] blob never makes the run
    fail: when the source yields its context, [drawImage] can draw from it
    and [toBlob] does not throw, the run resolves whether the callbacks
    receive blobs or [null]. *)
Theorem failed_encoding_drops_region sourceCanvas splitY2 :
  let c4 := m4Canvas sourceCanvas (midEndOf sourceCanvas splitY2) in
  (forall l,
     processSlices sourceCanvas splitY2 = Resolved l ->
     (forall n x0 y0 w h,
        In (n, x0, y0, w, h) (extractRegions sourceCanvas splitY2) ->
        (toBlob (regionCanvas sourceCanvas x0 y0 w h) = Resolved None ->
         filter (hasId n) l = []) /\
        (forall b, 0 < w -> 0 < h ->
           getContext2d (blankCanvas w h) = true ->
           toBlob (regionCanvas sourceCanvas x0 y0 w h) = Resolved (Some b) ->
           filter (hasId n) l
           = [mkSlice n (n ++ ".png") b (createObjectURL b) w h x0 y0])) /\
     (toBlob c4 = Resolved None -> filter (hasId "m_4") l = []) /\
     (forall b, getContext2d (blankCanvas 640 480) = true ->
        toBlob c4 = Resolved (Some b) ->
        filter (hasId "m_4") l
        = [mkSlice "m_4" "m_4.png" b (createObjectURL b) 640 480 0
                   (midEndOf sourceCanvas splitY2)])) /\
  (getContext2d sourceCanvas = true ->
   drawable sourceCanvas splitY2 ->
   regionsAnswered P sourceCanvas splitY2 ->
   (exists answer, toBlob c4 = Resolved answer) ->
   exists l, processSlices sourceCanvas splitY2 = Resolved l).
Proof.
  cbv zeta. split.
  - intros l Hrun. apply processSlices_inv in Hrun as (_ & Hres & ->).
    destruct (pieces_resolve _ _ Hres) as [Hpieces Hm4].
    split; [|split].
    + intros n x0 y0 w h Hin. rewrite (region_selected _ _ _ _ _ _ _ Hres Hin).
      split.
      * intros Hnone.
        destruct (extractOut sourceCanvas x0 y0 w h n) as [|r rest] eqn:Hout;
          [reflexivity|].
        assert (Hr : In r (extractOut sourceCanvas x0 y0 w h n))
          by (rewrite Hout; now left).
        apply extractOut_inv in Hr.
        destruct Hr as (_ & _ & _ & _ & _ & _ & _ & _ & _ & _ & Hb).
        congruence.
      * intros b Hw Hh Hc Hb. apply extractOut_emits; try assumption.
        apply (resolved_drew _ x0 y0 w h n); try assumption.
        now apply Hpieces.
    + intros Hnone. rewrite (m4_selected _ _ Hres).
      destruct (m4Out sourceCanvas (midEndOf sourceCanvas splitY2))
        as [|r rest] eqn:Hout; [reflexivity|].
      assert (Hr : In r (m4Out sourceCanvas (midEndOf sourceCanvas splitY2)))
        by (rewrite Hout; now left).
      apply m4Out_inv in Hr.
      destruct Hr as (_ & _ & _ & _ & _ & _ & _ & _ & Hb). congruence.
    + intros b Hc Hb. rewrite (m4_selected _ _ Hres).
      apply m4Out_emits; [exact Hc | | exact Hb].
      now apply resolved_drew_m4.
  - intros Hctx Hdraw Hregions Hm4. eexists.
    apply processSlices_resolved; [exact Hctx|].
    now apply drawable_resolves.
Qed.

(** ** Scenario A: a 640 x 640 source with [splitY2 = 800] *)

(** The guard of the middle part tests the value [midHeightOf] names. *)
Lemma middleOut_midHeight sourceCanvas splitY2 :
  middleOut (P := P) sourceCanvas splitY2
  = if 0 <? midHeightOf sourceCanvas splitY2
    then extractOut sourceCanvas 0 splitY1 640
           (midHeightOf sourceCanvas splitY2) "m_3"
    else [].
Proof. reflexivity. Qed.

(** Claim C9, as the code has it.  For a source canvas that has a width and
    is 640 rows high and [splitY2 = 800], on a platform that serves the run,
    the result is m_1 (240 x 640 at x = 80), m_2 (240 x 640 at x = 320), m_4,
    m_5 (80 x 640 at x = 0) and m_6 (80 x 640 at x = 560), in this order.
    [midHeight] is [min(800, 640) - 640 = 0], which is not positive, so there
    is no m_3.  [botStart] is 640, [availableHeight] is 0, and m_4 is a
    640 x 480 slice at y = 640 encoding a canvas that is transparent
    throughout. *)
Theorem scenario_A sourceCanvas :
  served P sourceCanvas 800 ->
  cwidth sourceCanvas <> 0 ->
  cheight sourceCanvas = 640 ->
  exists l,
    processSlices sourceCanvas 800 = Resolved l /\
    map descriptor l
    = [("m_1"%string, 80, 0, 240, 640); ("m_2"%string, 320, 0, 240, 640);
       ("m_4"%string, 0, 640, 640, 480);
       ("m_5"%string, 0, 0, 80, 640); ("m_6"%string, 560, 0, 80, 640)] /\
    midHeightOf sourceCanvas 800 = 0 /\
    filter (hasId "m_3") l = [] /\
    midEndOf sourceCanvas 800 = 640 /\
    availableHeightOf sourceCanvas 800 = 0 /\
    (exists r, filter (hasId "m_4") l = [r] /\
               toBlob (m4Canvas sourceCanvas 640)
               = Resolved (Some (blob r))) /\
    forall px py, getPixel (m4Canvas sourceCanvas 640) px py = transparent.
Proof.
  intros Hserved Hw Hh.
  assert (Hdraw : drawable sourceCanvas 800) by (split; [assumption|lia]).
  destruct (served_resolved _ _ Hdraw Hserved) as [Hrun Hres].
  assert (Hu : unusable sourceCanvas = false).
  { destruct (drawable_cases _ _ Hdraw) as [Hu|[Hz _]]; [exact Hu|lia]. }
  assert (Hmid : middleOut sourceCanvas 800 = []).
  { unfold middleOut. rewrite Hh. reflexivity. }
  assert (Hend : midEndOf sourceCanvas 800 = 640).
  { unfold midEndOf. rewrite Hh. reflexivity. }
  destruct (served_m4Out _ _ Hserved Hdraw) as (b4 & Hb4 & Hout4).
  rewrite Hend in Hb4, Hout4.
  assert (Hin : forall n x0 w,
            In (n, x0, w) [("m_5"%string, 0, 80); ("m_6"%string, 560, 80);
                           ("m_1"%string, 80, 240); ("m_2"%string, 320, 240)]
            -> In (n, x0, 0, w, 640) (extractRegions sourceCanvas 800)).
  { intros n x0 w Hn. simpl in Hn. unfold extractRegions. cbv zeta.
    rewrite Hh. change (Z.min splitY1 640) with 640. simpl.
    destruct Hn as [Heq|[Heq|[Heq|[Heq|[]]]]]; injection Heq as <- <- <-;
      tauto. }
  eexists. split; [exact Hrun|].
  split; [|split; [|split; [|split; [|split; [|split]]]]].
  - rewrite (execM_sliceAll _ _ Hres). cbv zeta. rewrite Hmid, Hh.
    change (Z.min splitY1 640) with 640. change (Z.min 800 640) with 640.
    destruct (served_extractOut sourceCanvas 800 "m_5" 0 0 80 640 Hserved Hu)
      as (b5 & _ & ->); [apply Hin; simpl; tauto | lia | lia |].
    destruct (served_extractOut sourceCanvas 800 "m_6" 560 0 80 640 Hserved
                Hu) as (b6 & _ & ->); [apply Hin; simpl; tauto | lia | lia |].
    destruct (served_extractOut sourceCanvas 800 "m_1" 80 0 240 640 Hserved
                Hu) as (b1 & _ & ->); [apply Hin; simpl; tauto | lia | lia |].
    destruct (served_extractOut sourceCanvas 800 "m_2" 320 0 240 640 Hserved
                Hu) as (b2 & _ & ->); [apply Hin; simpl; tauto | lia | lia |].
    rewrite Hout4. reflexivity.
  - unfold midHeightOf. rewrite Hend. reflexivity.
  - rewrite (m3_selected _ _ Hres), Hmid. reflexivity.
  - exact Hend.
  - unfold availableHeightOf. rewrite Hend, Hh. reflexivity.
  - rewrite (m4_selected _ _ Hres), Hend, Hout4.
    eexists. split; [reflexivity | exact Hb4].
  - intros px py. rewrite m4Canvas_pixel, Hh. decide_comparisons.
Qed.

(** ** The origin recorded for the bottom region *)


(** ** resizeImageTo640 *)

Lemma assignedWidth_640 : assignedWidth (ofInt 640) = 640.
Proof. reflexivity. Qed.



Lemma drawImageScaled_size dst img dw dh c :
  drawImageScaled dst img dw dh = Resolved c ->
  cwidth c = cwidth dst /\ cheight c = cheight dst.
Proof.
  unfold drawImageScaled.
  destruct (negb (isFinite dw && isFinite dh)); [intros [= <-]; now split|].
  destruct (ibroken img); [discriminate|].
  intros [= <-]. now split.
Qed.


(** Claim C5, at a square source.  For a source of 77 x 77 pixels that has
    loaded, the exact height [77 * 640 / 77] is the integer 640, which
    rounding down, up or to the nearest integer all leave unchanged;
    [resizeImageTo640] resolves with a canvas of width 640 and height 639:
    the binary64 product [77 * (640 / 77)] falls just below 640 and the
    assignment to [canvas.height] truncates it. *)
Theorem resize_square_77_is_639 img :
  getContext2d createElementCanvas = true ->
  ibroken img = false ->
  iwidth img = 77 -> iheight img = 77 ->
  exists c,
    resizeImageTo640 img = Resolved c /\
    cwidth c = 640 /\ cheight c = 639 /\
    exactFloor (iwidth img) (iheight img) = 640 /\
    exactCeil (iwidth img) (iheight img) = 640 /\
    exactNearest (iwidth img) (iheight img) = 640.
Proof.
  intros Hctx Hb Hw Hh. unfold resizeImageTo640, drawImageScaled.
  rewrite Hctx, Hb, Hw, Hh. cbv zeta. simpl negb. cbv iota.
  replace (negb (isFinite (ofInt 640)
                 && isFinite (numMul (ofInt 77)
                                (numDiv (ofInt 640) (ofInt 77)))))
    with false by (vm_compute; reflexivity).
  eexists. split; [reflexivity|]. repeat split; vm_compute; reflexivity.
Qed.

End Facts.

(** * The theorems at concrete inputs *)

(** [idealPlatform] serves a run on a concrete source. *)
Ltac ideal_serves :=
  split; [reflexivity|];
  split;
  [ intros n x0 y0 w h Hin Hpos; simpl in Hin;
    repeat (destruct Hin as [Hin|Hin];
            [ injection Hin as <- <- <- <- <-;
              first [ split; [reflexivity | eexists; reflexivity]
                    | exfalso; vm_compute in Hpos; discriminate ]
            | ]);
    destruct Hin
  | split; [reflexivity | eexists; reflexivity] ].

Ltac is_drawable := split; [simpl; discriminate | simpl; lia].

(** A source 900 rows high with [splitY2 = 800]: one m_4 of 640 x 480 whose
    first 100 rows come from the source. *)
Lemma m4_fixed_size_padded_witness :
  drawable (gradient 640 900) 800 /\
  getContext2d (Platform := idealPlatform) (gradient 640 900) = true /\
  exists l r,
    processSlices (P := idealPlatform) (gradient 640 900) 800 = Resolved l /\
    filter (hasId "m_4") l = [r] /\ width r = 640 /\ height r = 480.
Proof.
  split; [is_drawable|]. split; [reflexivity|].
  destruct (m4_fixed_size_padded (P := idealPlatform) (gradient 640 900) 800
              (m4Canvas (gradient 640 900) 800))
    as (l & r & Hrun & Hone & _ & Hw & Hh & _).
  - is_drawable.
  - reflexivity.
  - intros n x0 y0 w h _ _. eexists. reflexivity.
  - reflexivity.
  - reflexivity.
  - exists l, r. repeat split; assumption.
Defined.

(** A raster of 640 x 0 with [splitY2 = -5]: [availableHeight] is 5, the
    bottom part calls [drawImage] on a source without rows, and the run is
    rejected; no m_4 is returned. *)
Lemma m4_absent_for_empty_raster :
  cwidth (gradient 640 0) = 640 /\ cheight (gradient 640 0) = 0 /\
  availableHeightOf (gradient 640 0) (-5) = 5 /\
  processSlices (P := idealPlatform) (gradient 640 0) (-5)
  = Rejected "InvalidStateError".
Proof. repeat split; reflexivity. Qed.

Lemma top_group_heights_witness :
  cwidth (gradient 640 100) <> 0 /\
  served idealPlatform (gradient 640 100) 800 /\
  exists l,
    processSlices (P := idealPlatform) (gradient 640 100) 800 = Resolved l /\
    map descriptor (filter topGroup l) = topRow 100.
Proof.
  split; [simpl; discriminate|]. split; [ideal_serves|].
  destruct (top_group_heights (P := idealPlatform) (gradient 640 100) 800)
    as (_ & Hshort & _); [simpl; discriminate | ideal_serves |].
  destruct Hshort as (l & Hrun & Htop); [simpl; lia|].
  exists l. split; assumption.
Defined.

Lemma m3_iff_positive_mid_witness :
  cwidth (gradient 640 900) <> 0 /\
  served idealPlatform (gradient 640 900) 800 /\
  exists l r,
    processSlices (P := idealPlatform) (gradient 640 900) 800 = Resolved l /\
    filter (hasId "m_3") l = [r] /\
    descriptor r = ("m_3"%string, 0, 640, 640, 160).
Proof.
  split; [simpl; discriminate|]. split; [ideal_serves|].
  destruct (m3_iff_positive_mid (P := idealPlatform) (gradient 640 900) 800)
    as (Hpos & _); [simpl; discriminate | ideal_serves |].
  destruct Hpos as (l & r & Hrun & Hone & Hdesc & _); [simpl; lia|].
  exists l, r. repeat split; assumption.
Defined.

Lemma result_sorted_by_name_witness :
  exists l,
    processSlices (P := idealPlatform) (gradient 640 900) 800 = Resolved l /\
    StronglySorted nameOrder l.
Proof.
  eexists. split; [reflexivity|].
  apply (proj1 (result_sorted_by_name (P := idealPlatform) (gradient 640 900)
                  800 _ eq_refl)).
Defined.

(** A raster without rows: no slice of the top band, and m_4 all the same,
    at its full size. *)
Lemma slices_have_positive_area_witness :
  exists l r,
    processSlices (P := idealPlatform) (gradient 640 0) 800 = Resolved l /\
    Forall (fun r => 0 < width r /\ 0 < height r) l /\
    filter topGroup l = [] /\
    filter (hasId "m_4") l = [r] /\ width r = 640 /\ height r = 480.
Proof.
  eexists.
  destruct (slices_have_positive_area (P := idealPlatform) (gradient 640 0)
              800 _ eq_refl) as (Hpos & Htop & _ & Hm4 & _).
  destruct (Hm4 eq_refl (m4Canvas (gradient 640 0) 0) eq_refl)
    as (r & Hone & Hw & Hh & _).
  exists r. split; [reflexivity|]. split; [exact Hpos|].
  split; [apply Htop; simpl; lia|]. repeat split; assumption.
Defined.

Lemma scenario_A_witness :
  served idealPlatform (gradient 640 640) 800 /\
  cwidth (gradient 640 640) <> 0 /\ cheight (gradient 640 640) = 640 /\
  exists l,
    processSlices (P := idealPlatform) (gradient 640 640) 800 = Resolved l /\
    map id l = ["m_1"; "m_2"; "m_4"; "m_5"; "m_6"]%string.
Proof.
  split; [ideal_serves|]. split; [simpl; discriminate|].
  split; [reflexivity|].
  destruct (scenario_A (P := idealPlatform) (gradient 640 640))
    as (l & Hrun & Hdesc & _);
    [ideal_serves | simpl; discriminate | reflexivity |].
  exists l. split; [exact Hrun|].
  change (@id idealPlatform)
    with (fun r => fst (fst (fst (fst (descriptor (P := idealPlatform) r))))).
  rewrite <- (map_map descriptor (fun d => fst (fst (fst (fst d))))), Hdesc.
  reflexivity.
Defined.



(** ** The encoder failing on a region *)

(** On [lossyPlatform] the encoder yields nothing for the canvas of m_5, yet
    the run resolves, with a list from which m_5 and m_6 are missing. *)
Lemma lossy_run_resolves_without_m5 :
  toBlob (Platform := lossyPlatform)
         (regionCanvas (gradient 640 900) 0 0 80 640) = Resolved None /\
  exists l,
    processSlices (P := lossyPlatform) (gradient 640 900) 800 = Resolved l /\
    map id l = ["m_1"; "m_2"; "m_3"; "m_4"]%string.
Proof.
  split; [reflexivity|]. eexists. split; reflexivity.
Qed.

Lemma failed_encoding_drops_region_witness :
  exists l,
    processSlices (P := lossyPlatform) (gradient 640 900) 800 = Resolved l /\
    filter (hasId "m_5") l = [].
Proof.
  eexists. split; [reflexivity|].
  destruct (proj1 (failed_encoding_drops_region (P := lossyPlatform)
                     (gradient 640 900) 800) _ eq_refl)
    as (Hreg & _).
  apply (Hreg "m_5"%string 0 0 80 640); [left; reflexivity | reflexivity].
Defined.

(** ** Scenario A: the height of the middle region *)

(** For a source 640 rows high and [splitY2 = 800], [midHeight] is 0 and not
    -160. *)
Lemma scenario_A_midHeight_is_zero :
  midHeightOf (gradient 640 640) 800 = 0 /\
  ~ midHeightOf (gradient 640 640) 800 = -160.
Proof. split; [reflexivity | discriminate]. Qed.

(** ** resizeImageTo640 on degenerate and square sources *)



Lemma resize_square_77_is_639_witness :
  getContext2d (Platform := idealPlatform) createElementCanvas = true /\
  ibroken (photo 77 77) = false /\
  exists c,
    resizeImageTo640 (P := idealPlatform) (photo 77 77) = Resolved c /\
    cwidth c = 640 /\ cheight c = 639.
Proof.
  split; [reflexivity|]. split; [reflexivity|].
  destruct (resize_square_77_is_639 (P := idealPlatform) (photo 77 77)
              eq_refl eq_refl eq_refl eq_refl) as (c & Hrun & Hw & Hh & _).
  exists c. repeat split; assumption.
Defined.
(** * Further properties of the engine *)

Section Coverage.

Context {P : Platform}.

Implicit Types (r : SliceResult P) (l : list (SliceResult P)).

Ltac decide_comparisons :=
  repeat match goal with
         | |- context [?a <=? ?b] => destruct (Z.leb_spec a b)
         | |- context [?a <? ?b] => destruct (Z.ltb_spec a b)
         end;
  simpl; try reflexivity; try lia.

(** ** Identifiers and names *)

Lemma extractOut_ids sourceCanvas x0 y0 w h n :
  let out := extractOut (P := P) sourceCanvas x0 y0 w h n in
  (map id out = [] /\ map name out = []) \/
  (map id out = [n] /\ map name out = [(n ++ ".png")%string]).
Proof.
  cbv zeta.
  destruct (extractOut sourceCanvas x0 y0 w h n) as [|r rest] eqn:Hout;
    [now left|].
  assert (Hin : In r (extractOut sourceCanvas x0 y0 w h n))
    by (rewrite Hout; now left).
  apply extractOut_inv in Hin. destruct Hin as (Hone & _ & _ & Hid & Hname & _).
  rewrite Hout in Hone. injection Hone as ->.
  right. simpl. now rewrite Hid, Hname.
Qed.

Lemma middleOut_ids sourceCanvas splitY2 :
  let out := middleOut (P := P) sourceCanvas splitY2 in
  (map id out = [] /\ map name out = []) \/
  (map id out = ["m_3"%string] /\ map name out = ["m_3.png"%string]).
Proof.
  cbv zeta. unfold middleOut. cbv zeta.
  destruct (0 <? Z.min splitY2 (cheight sourceCanvas) - splitY1);
    [|now left].
  apply (extractOut_ids sourceCanvas 0 splitY1 640 _ "m_3").
Qed.

Lemma m4Out_ids sourceCanvas botStart :
  let out := m4Out (P := P) sourceCanvas botStart in
  (map id out = [] /\ map name out = []) \/
  (map id out = ["m_4"%string] /\ map name out = ["m_4.png"%string]).
Proof.
  cbv zeta.
  destruct (m4Out sourceCanvas botStart) as [|r rest] eqn:Hout; [now left|].
  assert (Hin : In r (m4Out sourceCanvas botStart))
    by (rewrite Hout; now left).
  apply m4Out_inv in Hin. destruct Hin as (Hone & Hid & Hname & _).
  rewrite Hout in Hone. injection Hone as ->.
  right. simpl. now rewrite Hid, Hname.
Qed.

Ltac nodup_strings :=
  repeat (constructor; [simpl; intuition discriminate|]); constructor.

Lemma pushed_ids_distinct sourceCanvas splitY2 :
  resolves (sliceAll (P := P) sourceCanvas splitY2) ->
  let pushed := execM (sliceAll (P := P) sourceCanvas splitY2) in
  NoDup (map id pushed) /\ NoDup (map name pushed) /\
  (List.length pushed <= 6)%nat.
Proof.
  intros Hres. cbv zeta. rewrite (execM_sliceAll _ _ Hres). cbv zeta.
  rewrite <- (length_map id), !map_app.
  destruct (extractOut_ids sourceCanvas 0 0 80
              (Z.min splitY1 (cheight sourceCanvas)) "m_5") as [[-> ->]|[-> ->]];
  destruct (extractOut_ids sourceCanvas 560 0 80
              (Z.min splitY1 (cheight sourceCanvas)) "m_6") as [[-> ->]|[-> ->]];
  destruct (extractOut_ids sourceCanvas 80 0 240
              (Z.min splitY1 (cheight sourceCanvas)) "m_1") as [[-> ->]|[-> ->]];
  destruct (extractOut_ids sourceCanvas 320 0 240
              (Z.min splitY1 (cheight sourceCanvas)) "m_2") as [[-> ->]|[-> ->]];
  destruct (middleOut_ids sourceCanvas splitY2) as [[-> ->]|[-> ->]];
  destruct (m4Out_ids sourceCanvas (Z.min splitY2 (cheight sourceCanvas)))
    as [[-> ->]|[-> ->]];
  (split; [nodup_strings | split; [nodup_strings | simpl; lia]]).
Qed.

Lemma result_ids_known sourceCanvas splitY2 l r :
  processSlices sourceCanvas splitY2 = Resolved l ->
  In r l -> In (id r) sliceIds /\ name r = (id r ++ ".png")%string.
Proof.
  intros Hrun Hin.
  destruct (processSlices_In _ _ _ _ Hrun Hin) as [H|[H|[H|[H|[H|H]]]]];
    try (apply extractOut_inv in H;
         destruct H as (_ & _ & _ & -> & -> & _);
         split; [simpl; tauto | reflexivity]).
  - apply middleOut_inv in H. destruct H as (_ & _ & -> & -> & _).
    split; [simpl; tauto | reflexivity].
  - apply m4Out_inv in H. destruct H as (_ & -> & -> & _).
    split; [simpl; tauto | reflexivity].
Qed.

(** Whatever the platform does, the slices of a result bear pairwise distinct
    identifiers and pairwise distinct names, taken from m_1 .. m_6 with the
    name being the identifier followed by ".png"; there are at most six of
    them. *)
Theorem result_names_distinct sourceCanvas splitY2 l :
  processSlices sourceCanvas splitY2 = Resolved l ->
  NoDup (map id l) /\ NoDup (map name l) /\
  (List.length l <= 6)%nat /\
  Forall (fun r => In (id r) sliceIds /\ name r = (id r ++ ".png")%string) l.
Proof.
  intros Hrun. pose proof Hrun as Hinv.
  apply processSlices_inv in Hinv as (_ & Hres & ->).
  destruct (pushed_ids_distinct sourceCanvas splitY2 Hres)
    as (Hid & Hname & Hlen).
  pose proof (sortSlices_perm (execM (sliceAll sourceCanvas splitY2))) as Hp.
  split; [|split; [|split]].
  - eapply Permutation_NoDup; [|exact Hid].
    apply Permutation_map. symmetry. exact Hp.
  - eapply Permutation_NoDup; [|exact Hname].
    apply Permutation_map. symmetry. exact Hp.
  - rewrite (Permutation_length Hp). exact Hlen.
  - apply Forall_forall. intros r Hr. eapply result_ids_known; eassumption.
Qed.

(** ** The whole result on a platform that serves the run *)

(** For a source [drawImage] can draw from (it has a width, and a height
    unless [splitY2 >= 0]), on a platform that serves the run, the run
    resolves and the geometry of the result is a function of the height [h]
    of the source and of [splitY2] alone: m_1 and m_2 (when [h > 0]), m_3
    (when [min(splitY2, h) > 640]), m_4, then m_5 and m_6 (when [h > 0]),
    with the rectangles [expectedDescriptors] lists.  The result therefore
    has 1, 5 or 6 slices. *)
Theorem result_geometry sourceCanvas splitY2 :
  drawable sourceCanvas splitY2 ->
  served P sourceCanvas splitY2 ->
  exists l,
    processSlices sourceCanvas splitY2 = Resolved l /\
    map descriptor l = expectedDescriptors (cheight sourceCanvas) splitY2 /\
    (List.length l = 1 \/ List.length l = 5 \/ List.length l = 6)%nat.
Proof.
  intros Hdraw Hserved.
  destruct (served_resolved _ _ Hdraw Hserved) as [Hrun Hres].
  eexists. split; [exact Hrun|].
  assert (Hdesc :
    map descriptor (sortSlices (execM (sliceAll sourceCanvas splitY2)))
    = expectedDescriptors (cheight sourceCanvas) splitY2).
  { rewrite (execM_sliceAll _ _ Hres).
    unfold expectedDescriptors. cbv zeta. rewrite middleOut_region.
    unfold midHeightOf, midEndOf. change splitY1 with 640.
    destruct (served_m4Out _ _ Hserved Hdraw) as (b4 & _ & Hout4).
    unfold midEndOf in Hout4. rewrite Hout4.
    destruct (Z.ltb_spec 0 (cheight sourceCanvas)) as [Hh|Hh].
    - assert (Hth : 0 < Z.min 640 (cheight sourceCanvas)) by lia.
      assert (Hu : unusable sourceCanvas = false).
      { destruct (drawable_cases _ _ Hdraw) as [Hu|[Hz _]]; [exact Hu|lia]. }
      set (th := Z.min 640 (cheight sourceCanvas)) in *.
      set (mh := Z.min splitY2 (cheight sourceCanvas) - 640) in *.
      assert (Hin : forall n x0 y0 w h,
                In (n, x0, y0, w, h)
                   [("m_5"%string, 0, 0, 80, th);
                    ("m_6"%string, 560, 0, 80, th);
                    ("m_1"%string, 80, 0, 240, th);
                    ("m_2"%string, 320, 0, 240, th);
                    ("m_3"%string, 0, 640, 640, mh)] ->
                In (n, x0, y0, w, h)
                   (extractRegions sourceCanvas splitY2)).
      { intros n x0 y0 w h Hn. exact Hn. }
      destruct (served_extractOut sourceCanvas splitY2 "m_5" 0 0 80 th
                  Hserved Hu) as (b5 & _ & ->);
        [apply Hin; simpl; tauto | lia | exact Hth|].
      destruct (served_extractOut sourceCanvas splitY2 "m_6" 560 0 80 th
                  Hserved Hu) as (b6 & _ & ->);
        [apply Hin; simpl; tauto | lia | exact Hth|].
      destruct (served_extractOut sourceCanvas splitY2 "m_1" 80 0 240 th
                  Hserved Hu) as (b1 & _ & ->);
        [apply Hin; simpl; tauto | lia | exact Hth|].
      destruct (served_extractOut sourceCanvas splitY2 "m_2" 320 0 240 th
                  Hserved Hu) as (b2 & _ & ->);
        [apply Hin; simpl; tauto | lia | exact Hth|].
      destruct (Z.ltb_spec 0 mh) as [Hmid|Hmid].
      + destruct (served_extractOut sourceCanvas splitY2 "m_3" 0 640 640 mh
                    Hserved Hu) as (b3 & _ & ->);
          [apply Hin; simpl; tauto | lia | exact Hmid|].
        reflexivity.
      + rewrite (extractOut_skip _ 0 640 640 mh) by (left; exact Hmid).
        reflexivity.
    - rewrite !extractOut_skip by (left; lia).
      destruct (Z.ltb_spec 0 (Z.min splitY2 (cheight sourceCanvas) - 640))
        as [Hmid|Hmid]; [lia | reflexivity]. }
  split; [exact Hdesc|].
  rewrite <- (length_map descriptor), Hdesc. unfold expectedDescriptors.
  cbv zeta.
  destruct (0 <? cheight sourceCanvas) eqn:Hh;
    destruct (0 <? Z.min splitY2 (cheight sourceCanvas) - 640) eqn:Hmid;
    simpl; try tauto.
  apply Z.ltb_ge in Hh. apply Z.ltb_lt in Hmid. lia.
Qed.

(** ** The rectangles recorded in the slices *)

(** Whatever the platform does, the rectangle recorded in a slice other than
    m_4 lies inside the 640 columns and the rows of the source; the slices of
    the top band start at row 0 and have the height [min(640, h)]; m_3 starts
    at row 640 and ends at row [min(splitY2, h)], which is the row recorded
    as the origin of m_4; and the origin of m_4 is never below the bottom
    edge of the source. *)
Theorem recorded_rectangles sourceCanvas splitY2 l r :
  processSlices sourceCanvas splitY2 = Resolved l ->
  In r l ->
  let h := cheight sourceCanvas in
  (id r <> "m_4"%string ->
   0 <= x r /\ x r + width r <= 640 /\ 0 <= y r /\ y r + height r <= h) /\
  (topGroup r = true -> y r = 0 /\ height r = Z.min 640 h) /\
  (id r = "m_3"%string ->
   x r = 0 /\ width r = 640 /\ y r = 640 /\
   y r + height r = Z.min splitY2 h /\
   forall r4, In r4 l -> id r4 = "m_4"%string -> y r4 = y r + height r) /\
  (id r = "m_4"%string -> x r = 0 /\ y r = Z.min splitY2 h /\ y r <= h).
Proof.
  intros Hrun Hin h.
  assert (Hm4 : forall r4, In r4 l -> id r4 = "m_4"%string ->
                           y r4 = Z.min splitY2 h).
  { intros r4 Hin4 Hid4.
    destruct (processSlices_In _ _ _ _ Hrun Hin4) as [H|[H|[H|[H|[H|H]]]]];
      try (apply extractOut_inv in H;
           destruct H as (_ & _ & _ & Hn & _); rewrite Hid4 in Hn;
           discriminate).
    - apply middleOut_inv in H. destruct H as (_ & _ & Hn & _).
      rewrite Hid4 in Hn. discriminate.
    - apply m4Out_inv in H. intuition. }
  destruct (processSlices_In _ _ _ _ Hrun Hin) as [H|[H|[H|[H|[H|H]]]]];
    try (apply extractOut_inv in H;
         destruct H as (_ & Hw & Hh & Hid & _ & Hwd & Hht & Hx & Hy & _);
         unfold topGroup, hasId; rewrite Hid, Hwd, Hht, Hx, Hy;
         fold h in Hh |- *; unfold splitY1 in *;
         repeat split; intros; try discriminate; lia).
  - apply middleOut_inv in H. cbv zeta in H.
    destruct H as (_ & Hmid & Hid & _ & Hwd & Hht & Hx & Hy & _).
    unfold topGroup, hasId. rewrite Hid, Hwd, Hht, Hx, Hy.
    fold h in Hmid |- *. unfold splitY1 in *.
    repeat split; intros; try discriminate; try lia.
    rewrite (Hm4 r4) by assumption. lia.
  - apply m4Out_inv in H.
    destruct H as (_ & Hid & _ & Hwd & Hht & Hx & Hy & _).
    unfold topGroup, hasId. rewrite Hid, Hx, Hy. fold h.
    repeat split; intros; try discriminate; try congruence; lia.
Qed.

(** ** How the slices cover the source *)

(** The four rectangles of the top band tile the 640 columns: a pixel of the
    first [min(640, h)] rows at a column below 640 lies in the column range of
    exactly one of m_5, m_1, m_2, m_6, and the canvas cut for that region
    holds it, at the column counted from the left edge of the region. *)
Theorem top_band_tiles sourceCanvas splitY2 px py :
  0 <= px < 640 -> 0 <= py < Z.min 640 (cheight sourceCanvas) ->
  let topHeight := Z.min 640 (cheight sourceCanvas) in
  exists n x0 w,
    In (n, x0, 0, w, topHeight) (extractRegions sourceCanvas splitY2) /\
    x0 <= px < x0 + w /\
    getPixel (regionCanvas sourceCanvas x0 0 w topHeight) (px - x0) py
    = getPixel sourceCanvas px py /\
    forall n' x0' w' h',
      In (n', x0', 0, w', h') (extractRegions sourceCanvas splitY2) ->
      x0' <= px < x0' + w' -> n' = n.
Proof.
  intros Hx Hy topHeight.
  assert (Hpix : forall x0 w, x0 <= px < x0 + w ->
            getPixel (regionCanvas sourceCanvas x0 0 w topHeight) (px - x0) py
            = getPixel sourceCanvas px py).
  { intros x0 w Hin. rewrite regionCanvas_pixel by (unfold topHeight; lia).
    f_equal; lia. }
  assert (Hcase : px < 80 \/ 80 <= px < 320 \/ 320 <= px < 560 \/ 560 <= px)
    by lia.
  unfold extractRegions. cbv zeta. change splitY1 with 640. fold topHeight.
  destruct Hcase as [Hc|[Hc|[Hc|Hc]]];
    [exists "m_5"%string, 0, 80 | exists "m_1"%string, 80, 240
     | exists "m_2"%string, 320, 240 | exists "m_6"%string, 560, 80];
    (split; [simpl; tauto|]); (split; [lia|]);
    (split; [apply Hpix; lia|]);
    intros n' x0' w' h' Hin Hcol; simpl in Hin;
    destruct Hin as [Heq|[Heq|[Heq|[Heq|[Heq|[]]]]]];
    injection Heq; intros; subst; try reflexivity; try discriminate; lia.
Qed.

(** With [splitY2 >= 640], as in the application, the bands follow one
    another without gap or overlap: a pixel of the source at a row from 640
    up to [splitY2] is held by the m_3 canvas at row [py - 640], one at a row
    from [splitY2] up to [splitY2 + 480] by the m_4 canvas at row
    [py - splitY2]. *)
Theorem lower_bands_cover sourceCanvas splitY2 px py :
  640 <= splitY2 -> 0 <= px < 640 -> 0 <= py < cheight sourceCanvas ->
  (640 <= py < splitY2 ->
   0 < midHeightOf sourceCanvas splitY2 /\
   getPixel (regionCanvas sourceCanvas 0 640 640
               (midHeightOf sourceCanvas splitY2)) px (py - 640)
   = getPixel sourceCanvas px py) /\
  (splitY2 <= py < splitY2 + 480 ->
   midEndOf sourceCanvas splitY2 = splitY2 /\
   getPixel (m4Canvas sourceCanvas (midEndOf sourceCanvas splitY2))
            px (py - splitY2)
   = getPixel sourceCanvas px py).
Proof.
  intros Hs Hx Hy. unfold midHeightOf, midEndOf, splitY1. split; intros Hrow.
  - split; [lia|]. rewrite regionCanvas_pixel by lia. f_equal; lia.
  - split; [lia|]. rewrite m4Canvas_pixel.
    replace (Z.min splitY2 (cheight sourceCanvas)) with splitY2 by lia.
    replace (splitY2 + (py - splitY2)) with py by lia.
    decide_comparisons.
Qed.

(** Rows of the source from [max(640, min(splitY2, h) + 480)] on reach no
    slice: two sources of the same height that agree above that row give the
    same rectangles and pixel-for-pixel the same canvases, for the five
    regions handed to [extract] and for m_4. *)
Theorem excess_rows_ignored source1 source2 splitY2 :
  cheight source1 = cheight source2 ->
  (forall px py,
     py < Z.max 640 (midEndOf source1 splitY2 + 480) ->
     getPixel source1 px py = getPixel source2 px py) ->
  extractRegions source1 splitY2 = extractRegions source2 splitY2 /\
  (forall n x0 y0 w h px py,
     In (n, x0, y0, w, h) (extractRegions source1 splitY2) ->
     getPixel (regionCanvas source1 x0 y0 w h) px py
     = getPixel (regionCanvas source2 x0 y0 w h) px py) /\
  (forall px py,
     getPixel (m4Canvas source1 (midEndOf source1 splitY2)) px py
     = getPixel (m4Canvas source2 (midEndOf source2 splitY2)) px py).
Proof.
  intros Hh Hagree.
  assert (Hend : midEndOf source2 splitY2 = midEndOf source1 splitY2)
    by (unfold midEndOf; now rewrite Hh).
  split; [|split].
  - unfold extractRegions, midHeightOf. now rewrite Hend, Hh.
  - intros n x0 y0 w h px py Hin.
    assert (Hrows : 0 <= y0 /\ y0 + h <= Z.max 640 (midEndOf source1 splitY2)).
    { unfold extractRegions, midHeightOf, splitY1 in Hin. simpl in Hin.
      destruct Hin as [Heq|[Heq|[Heq|[Heq|[Heq|[]]]]]];
        injection Heq as <- <- <- <- <-; lia. }
    destruct (Z_lt_ge_dec px 0) as [Hneg|Hpos].
    { unfold getPixel, inside. simpl. decide_comparisons. }
    destruct (Z_lt_ge_dec py 0) as [Hneg|Hpos'].
    { unfold getPixel, inside. simpl. decide_comparisons. }
    destruct (Z_lt_ge_dec px w) as [Hlt|Hge];
      [|unfold getPixel, inside; simpl; decide_comparisons].
    destruct (Z_lt_ge_dec py h) as [Hlt'|Hge];
      [|unfold getPixel, inside; simpl; decide_comparisons].
    rewrite !regionCanvas_pixel by lia. apply Hagree. lia.
  - intros px py. rewrite !m4Canvas_pixel, Hend, Hh.
    destruct ((0 <=? px) && (px <? 640) && (0 <=? py)
              && (py <? Z.min (cheight source2 - midEndOf source1 splitY2) 480))
      eqn:Hcond; [|reflexivity].
    apply Hagree.
    repeat (apply andb_true_iff in Hcond; destruct Hcond as [Hcond ?]).
    apply Z.ltb_lt in H. lia.
Qed.

(** ** Sources [drawImage] cannot draw from *)

(** A source canvas without rows or without columns makes the run fail as
    soon as something is drawn from it: with the context of the source
    granted, [processSlices] is rejected with [InvalidStateError] for a
    source of height 0 when [splitY2 < 0] and the 640 x 480 canvas obtains
    its context, and for a source of width 0 and positive height when the
    canvas of m_5 obtains its context; no slice is returned. *)
Theorem unusable_source_rejects sourceCanvas splitY2 :
  getContext2d sourceCanvas = true ->
  (cheight sourceCanvas = 0 /\ splitY2 < 0 /\
   getContext2d (blankCanvas 640 480) = true) \/
  (cwidth sourceCanvas = 0 /\ 0 < cheight sourceCanvas /\
   getContext2d (blankCanvas 80 (Z.min 640 (cheight sourceCanvas))) = true) ->
  processSlices sourceCanvas splitY2 = Rejected "InvalidStateError".
Proof.
  intros Hsrc Hcase. unfold processSlices. rewrite Hsrc. simpl negb.
  cbv iota.
  assert (Hall : sliceAll sourceCanvas splitY2 []
                 = Rejected "InvalidStateError").
  { rewrite sliceAll_parts. cbv zeta.
    destruct Hcase as [(Hz & Hs & Hctx)|(Hz & Hh & Hctx)].
    - assert (Hu : unusable sourceCanvas = true).
      { unfold unusable. rewrite Hz. apply orb_true_r. }
      rewrite Hz. change (Z.min splitY1 0) with 0.
      repeat (rewrite seq_run;
              [|repeat apply appender_seq; auto using extract_appender,
                  middle_appender, extractM4_appender]).
      rewrite !extract_skips by (left; lia).
      assert (Hmid : middle (P := P) sourceCanvas splitY2 []
                     = Resolved (tt, [])).
      { unfold middle. cbv zeta. rewrite Hz.
        replace (0 <? Z.min splitY2 0 - splitY1) with false; [reflexivity|].
        symmetry. apply Z.ltb_ge. unfold splitY1. lia. }
      rewrite Hmid, extractM4_throws; [reflexivity | exact Hctx | lia
                                       | exact Hu].
    - assert (Hu : unusable sourceCanvas = true).
      { unfold unusable. now rewrite Hz. }
      unfold bind at 1.
      rewrite extract_throws; [reflexivity | lia | unfold splitY1; lia
                               | exact Hctx | exact Hu]. }
  now rewrite Hall.
Qed.

End Coverage.

(** * The archive *)

Section Archive.

Context {P : Platform} {J : JSZip Blob}.

Implicit Types (r : SliceResult P) (l : list (SliceResult P))
  (es : list (string * Blob)).

Lemma upsert_names n (b : Blob) es m :
  In m (map fst (upsert n b es)) <-> m = n \/ In m (map fst es).
Proof.
  induction es as [|[k c] es IH]; simpl.
  - intuition.
  - destruct (String.eqb_spec k n) as [->|Hne]; simpl; [intuition|].
    rewrite IH. intuition.
Qed.

Lemma upsert_NoDup n (b : Blob) es :
  NoDup (map fst es) -> NoDup (map fst (upsert n b es)).
Proof.
  induction es as [|[k c] es IH]; simpl; intros Hnd.
  - constructor; [intros []|constructor].
  - inversion Hnd as [|? ? Hk Hrest]; subst.
    destruct (String.eqb_spec k n) as [->|Hne]; simpl.
    + now constructor.
    + constructor; [|now apply IH].
      rewrite upsert_names. intros [Heq|Hin]; [congruence | contradiction].
Qed.

Lemma upsert_holds n (b : Blob) es : In (n, b) (upsert n b es).
Proof.
  induction es as [|[k c] es IH]; simpl; [now left|].
  destruct (k =? n)%string; [now left | now right].
Qed.

Lemma upsert_keeps n (b : Blob) es m c :
  m <> n -> In (m, c) es -> In (m, c) (upsert n b es).
Proof.
  intros Hne. induction es as [|[k d] es IH]; simpl; [intros []|].
  destruct (String.eqb_spec k n) as [->|Hkn]; simpl.
  - intros [Heq|Hin]; [injection Heq as -> ->; congruence | now right].
  - intros [Heq|Hin]; [now left | right; now apply IH].
Qed.

Lemma upsert_fresh n (b : Blob) es :
  ~ In n (map fst es) -> upsert n b es = es ++ [(n, b)].
Proof.
  induction es as [|[k c] es IH]; simpl; intros Hfresh; [reflexivity|].
  destruct (String.eqb_spec k n) as [->|Hne]; [tauto|].
  f_equal. apply IH. tauto.
Qed.

Lemma fill_distinct l : forall zip,
  addsOrUpdates J ->
  Forall (fun r => slashFree (name r) = true) l ->
  NoDup (map name l) ->
  (forall n, In n (map name l) -> ~ In n (map fst (zipEntries zip))) ->
  zipEntries (fill zip l)
  = zipEntries zip ++ map (fun r => (name r, blob r)) l.
Proof.
  induction l as [|a l IH]; intros zip Hlaw Hfree Hnd Hnew; simpl.
  - now rewrite app_nil_r.
  - inversion Hfree as [|? ? Ha Hfree']; subst.
    inversion Hnd as [|? ? Hnotin Hnd']; subst.
    rewrite IH; try assumption.
    + rewrite (proj2 Hlaw) by exact Ha.
      rewrite upsert_fresh by (apply Hnew; now left).
      now rewrite <- app_assoc.
    + intros n Hn. rewrite (proj2 Hlaw) by exact Ha.
      rewrite upsert_names. intros [->|Hin]; [contradiction|].
      apply (Hnew n); [now right | exact Hin].
Qed.

Lemma fill_names l : forall zip,
  addsOrUpdates J ->
  Forall (fun r => slashFree (name r) = true) l ->
  NoDup (map fst (zipEntries zip)) ->
  NoDup (map fst (zipEntries (fill zip l))) /\
  forall n, In n (map fst (zipEntries (fill zip l)))
            <-> In n (map name l) \/ In n (map fst (zipEntries zip)).
Proof.
  induction l as [|a l IH]; intros zip Hlaw Hfree Hnd; simpl.
  - split; [exact Hnd | intuition].
  - inversion Hfree as [|? ? Ha Hfree']; subst.
    destruct (IH (zipFile zip (name a) (blob a)) Hlaw Hfree') as [Hnd' Hiff].
    { rewrite (proj2 Hlaw) by exact Ha. now apply upsert_NoDup. }
    split; [exact Hnd'|]. intros n. rewrite Hiff.
    rewrite (proj2 Hlaw) by exact Ha. rewrite upsert_names. intuition.
Qed.

Lemma fill_keeps l : forall zip n (b : Blob),
  addsOrUpdates J ->
  Forall (fun r => slashFree (name r) = true) l ->
  ~ In n (map name l) ->
  In (n, b) (zipEntries zip) -> In (n, b) (zipEntries (fill zip l)).
Proof.
  induction l as [|a l IH]; intros zip n b Hlaw Hfree Hnot Hin; simpl;
    [exact Hin|].
  inversion Hfree as [|? ? Ha Hfree']; subst.
  apply IH; try assumption.
  - simpl in Hnot. tauto.
  - rewrite (proj2 Hlaw) by exact Ha. apply upsert_keeps; [|exact Hin].
    simpl in Hnot. intros ->. tauto.
Qed.

Lemma result_names_slashFree sourceCanvas splitY2 l :
  processSlices sourceCanvas splitY2 = Resolved l ->
  Forall (fun r => slashFree (name r) = true) l.
Proof.
  intros Hrun. apply Forall_forall. intros r Hr.
  destruct (processSlices_In _ _ _ _ Hrun Hr) as [H|[H|[H|[H|[H|H]]]]];
    try (apply extractOut_inv in H;
         destruct H as (_ & _ & _ & _ & -> & _); reflexivity).
  - apply middleOut_inv in H. destruct H as (_ & _ & _ & -> & _).
    reflexivity.
  - apply m4Out_inv in H. destruct H as (_ & _ & -> & _). reflexivity.
Qed.

Lemma result_names_NoDup sourceCanvas splitY2 l :
  processSlices sourceCanvas splitY2 = Resolved l -> NoDup (map name l).
Proof.
  intros Hrun. apply processSlices_inv in Hrun as (_ & Hres & ->).
  eapply Permutation_NoDup;
    [apply Permutation_map; symmetry; apply sortSlices_perm|].
  now apply pushed_ids_distinct.
Qed.

(** With an archive object that adds or updates files as JSZip documents,
    [createZip] applied to a result of [processSlices] generates its blob
    from an archive that holds exactly one file per slice, in the order of
    the result, under the name of the slice and with the blob of the
    slice. *)
Theorem archive_lists_result sourceCanvas splitY2 l :
  addsOrUpdates J ->
  processSlices sourceCanvas splitY2 = Resolved l ->
  exists zip,
    createZip l = generateAsync zip /\
    zipEntries zip = map (fun r => (name r, blob r)) l.
Proof.
  intros Hlaw Hrun. exists (fillZip l). split; [reflexivity|].
  change (fillZip l) with (fill newJSZip l).
  rewrite fill_distinct; try assumption.
  - now rewrite (proj1 Hlaw).
  - eapply result_names_slashFree; eassumption.
  - eapply result_names_NoDup; eassumption.
  - intros n _. rewrite (proj1 Hlaw). intros [].
Qed.

(** With such an archive object, for any list of slices whose names hold no
    path separator, the archive [createZip] generates its blob from has one
    file per distinct name, and for a name borne by several slices it holds
    the blob of the last of them. *)
Theorem archive_last_wins l :
  addsOrUpdates J ->
  Forall (fun r => slashFree (name r) = true) l ->
  exists zip,
    createZip l = generateAsync zip /\
    NoDup (map fst (zipEntries zip)) /\
    (forall n, In n (map fst (zipEntries zip)) <-> In n (map name l)) /\
    forall l1 r l2,
      l = l1 ++ r :: l2 -> ~ In (name r) (map name l2) ->
      In (name r, blob r) (zipEntries zip).
Proof.
  intros Hlaw Hfree. exists (fillZip l). split; [reflexivity|].
  change (fillZip l) with (fill newJSZip l).
  destruct (fill_names l newJSZip Hlaw Hfree) as [Hnd Hiff].
  { rewrite (proj1 Hlaw). constructor. }
  split; [exact Hnd|]. split.
  - intros n. rewrite Hiff, (proj1 Hlaw). simpl. tauto.
  - intros l1 r l2 -> Hlast. unfold fill. rewrite fold_left_app. simpl.
    apply Forall_app in Hfree as [_ Hfree].
    inversion Hfree as [|? ? Hr Hfree2]; subst.
    apply fill_keeps; try assumption.
    rewrite (proj2 Hlaw) by exact Hr. apply upsert_holds.
Qed.

End Archive.

(** * The handlers *)

Section Handlers.

Context {P : Platform} {Br : Browser}.

Implicit Types (st : App.State P Br) (f : File).

Lemma resize_width img c :
  resizeImageTo640 img = Resolved c -> cwidth c = 640.
Proof.
  unfold resizeImageTo640. cbv zeta.
  destruct (negb (getContext2d createElementCanvas)); [discriminate|].
  intros Hdraw. apply drawImageScaled_size in Hdraw. now rewrite (proj1 Hdraw).
Qed.

Lemma settled_handleFileChange st files :
  settled st -> settled (App.handleFileChange files st).
Proof.
  intros Hst. destruct files as [f|]; simpl; [|exact Hst].
  destruct Hst as (Hproc & Hcanvas & Hslices).
  destruct (loadImage f) as [img|msg]; [destruct (resizeImageTo640 img)
                                          as [c|msg] eqn:Hresize|];
    simpl; (split; [exact Hproc|]); (split; [|now left]).
  - intros c' [= <-]. split; [eapply resize_width; eassumption|discriminate].
  - intros c' Hc'. split; [apply (Hcanvas c' Hc')|discriminate].
  - intros c' Hc'. split; [apply (Hcanvas c' Hc')|discriminate].
Qed.

Lemma settled_handleProcess st :
  settled st -> settled (App.handleProcess st).
Proof.
  intros Hst. unfold App.handleProcess.
  destruct (App.canvas st) as [c|] eqn:Hc; [|exact Hst].
  destruct Hst as (Hproc & Hcanvas & Hslices).
  change App.splitY2 with 800.
  destruct (processSlices c 800) as [result|msg] eqn:Hrun; simpl;
    (split; [reflexivity|]); (split; [exact Hcanvas|]).
  - right. exists c. now split.
  - exact Hslices.
Qed.

Lemma run_settled (events : list App.Event) :
  settled (App.run (P := P) events).
Proof.
  unfold App.run. induction events as [|e events IH] using rev_ind.
  - simpl. split; [reflexivity|]. split; [discriminate | now left].
  - rewrite fold_left_app. simpl. destruct e as [files|]; simpl.
    + now apply settled_handleFileChange.
    + now apply settled_handleProcess.
Qed.

(** Whatever files the user picks and however often the button is pressed,
    once the handlers have run the component is not processing, a canvas it
    keeps is 640 pixels wide and came with a file, and the slices it shows are
    either none or the result of [processSlices] on the canvas it keeps with
    [splitY2 = 800]; they bear pairwise distinct identifiers, the keys of the
    gallery. *)
Theorem app_state_settled (events : list App.Event) :
  let st := App.run (P := P) events in
  App.isProcessing st = false /\
  (forall c, App.canvas st = Some c ->
             cwidth c = 640 /\ App.file st <> None) /\
  (App.slices st = [] \/
   exists c, App.canvas st = Some c /\
             processSlices c 800 = Resolved (App.slices st)) /\
  NoDup (map id (App.slices st)).
Proof.
  cbv zeta.
  pose proof (run_settled events) as Hinv.
  destruct Hinv as (Hproc & Hcanvas & Hslices).
  split; [exact Hproc|]. split; [exact Hcanvas|]. split; [exact Hslices|].
  destruct Hslices as [->|(c & _ & Hrun)]; [constructor|].
  apply processSlices_inv in Hrun as (_ & Hres & ->).
  eapply Permutation_NoDup;
    [apply Permutation_map; symmetry; apply sortSlices_perm|].
  now apply pushed_ids_distinct.
Qed.

(** When the file picked cannot be loaded, or the resize of its image is
    rejected, the component records the new file, empties the slices and
    shows one alert, but keeps the canvas it had: pressing the button then
    slices the canvas of the file picked before. *)
Theorem failed_load_keeps_canvas st f :
  (exists msg, loadImage f = Rejected msg) \/
  (exists img msg,
     loadImage f = Resolved img /\ resizeImageTo640 img = Rejected msg) ->
  let st' := App.handleFileChange (Some f) st in
  App.file st' = Some f /\
  App.canvas st' = App.canvas st /\
  App.slices st' = [] /\
  App.alerts st'
  = App.alerts st ++ ["Could not load image. Please try another file."%string]
  /\
  forall c l,
    App.canvas st = Some c ->
    processSlices c 800 = Resolved l ->
    App.slices (App.handleProcess st') = l /\
    App.file (App.handleProcess st') = Some f.
Proof.
  intros Hfail. cbv zeta. unfold App.handleFileChange.
  assert (Hst : (match loadImage f with
                 | Resolved img =>
                     match resizeImageTo640 img with
                     | Resolved resizedCanvas =>
                         App.setCanvas resizedCanvas
                           (App.setSlices [] (App.setFile f st))
                     | Rejected _ =>
                         App.alert
                           "Could not load image. Please try another file."
                           (App.setSlices [] (App.setFile f st))
                     end
                 | Rejected _ =>
                     App.alert
                       "Could not load image. Please try another file."
                       (App.setSlices [] (App.setFile f st))
                 end)
                = App.alert "Could not load image. Please try another file."
                    (App.setSlices [] (App.setFile f st))).
  { destruct Hfail as [(msg & ->)|(img & msg & -> & ->)]; reflexivity. }
  cbv zeta. rewrite Hst. simpl.
  split; [reflexivity|]. split; [reflexivity|]. split; [reflexivity|].
  split; [reflexivity|].
  intros c l Hc Hrun. unfold App.handleProcess. simpl. rewrite Hc.
  change App.splitY2 with 800. rewrite Hrun. now split.
Qed.

(** The component always slices with [splitY2 = 800]: after any sequence of
    events handled one after the other, a slice m_3 it shows starts at row
    640 and is at most 160 rows high, its height being [min(800, h) - 640]
    for the height [h] of the canvas kept, so that it measures 640 x 160 only
    for a canvas of 800 rows or more; the origin of a slice m_4 it shows is
    [min(800, h)]. *)
Theorem app_slices_use_800 (events : list App.Event) r :
  let st := App.run (P := P) events in
  In r (App.slices st) ->
  exists c,
    App.canvas st = Some c /\
    (id r = "m_3"%string ->
     y r = 640 /\ width r = 640 /\
     height r = Z.min 800 (cheight c) - 640 /\ 0 < height r <= 160 /\
     (height r = 160 <-> 800 <= cheight c)) /\
    (id r = "m_4"%string -> y r = Z.min 800 (cheight c)).
Proof.
  cbv zeta. intros Hin.
  pose proof (run_settled events) as Hinv.
  destruct Hinv as (_ & _ & [Hnil|(c & Hc & Hrun)]).
  { rewrite Hnil in Hin. destruct Hin. }
  exists c. split; [exact Hc|].
  destruct (processSlices_In _ _ _ _ Hrun Hin) as [H|[H|[H|[H|[H|H]]]]];
    try (apply extractOut_inv in H;
         destruct H as (_ & _ & _ & Hid & _); rewrite Hid;
         split; intros; discriminate).
  - apply middleOut_inv in H. cbv zeta in H.
    destruct H as (_ & Hmid & Hid & _ & Hwd & Hht & _ & Hy & _).
    unfold splitY1 in *. split; [|rewrite Hid; discriminate].
    intros _. rewrite Hy, Hwd, Hht. repeat split; lia.
  - apply m4Out_inv in H.
    destruct H as (_ & Hid & _ & _ & _ & _ & Hy & _).
    split; [rewrite Hid; discriminate|]. intros _. exact Hy.
Qed.

End Handlers.

(** * The further properties at concrete inputs *)

Lemma result_names_distinct_witness :
  exists l,
    processSlices (P := lossyPlatform) (gradient 640 900) 800 = Resolved l /\
    NoDup (map id l) /\ (List.length l <= 6)%nat.
Proof.
  eexists. split; [reflexivity|].
  destruct (result_names_distinct (P := lossyPlatform) (gradient 640 900) 800
              _ eq_refl) as (Hid & _ & Hlen & _).
  split; assumption.
Defined.

Lemma result_geometry_witness :
  drawable (gradient 640 900) 800 /\
  served idealPlatform (gradient 640 900) 800 /\
  exists l,
    processSlices (P := idealPlatform) (gradient 640 900) 800 = Resolved l /\
    map descriptor l = expectedDescriptors 900 800.
Proof.
  split; [split; [simpl; discriminate | simpl; lia]|].
  split; [ideal_serves|].
  destruct (result_geometry (P := idealPlatform) (gradient 640 900) 800)
    as (l & Hrun & Hdesc & _);
    [split; [simpl; discriminate | simpl; lia] | ideal_serves |].
  exists l. split; assumption.
Defined.

Lemma recorded_rectangles_witness :
  exists l r,
    processSlices (P := idealPlatform) (gradient 640 900) 800 = Resolved l /\
    In r l /\ id r = "m_3"%string /\ y r + height r = 800.
Proof.
  eexists. eexists. split; [reflexivity|].
  split; [right; right; left; reflexivity|]. split; [reflexivity|].
  apply (recorded_rectangles (P := idealPlatform) (gradient 640 900) 800 _ _
           eq_refl).
  - right. right. left. reflexivity.
  - reflexivity.
Defined.

Lemma top_band_tiles_witness :
  exists n x0 w,
    In (n, x0, 0, w, 640) (extractRegions (gradient 640 900) 800) /\
    x0 <= 100 < x0 + w.
Proof.
  destruct (top_band_tiles (gradient 640 900) 800 100 5)
    as (n & x0 & w & Hin & Hcol & _); [lia | simpl; lia |].
  exists n, x0, w. split; assumption.
Defined.

Lemma lower_bands_cover_witness :
  getPixel (m4Canvas (gradient 640 900) (midEndOf (gradient 640 900) 800))
           7 (850 - 800)
  = getPixel (gradient 640 900) 7 850.
Proof.
  apply (lower_bands_cover (gradient 640 900) 800 7 850);
    simpl; lia.
Defined.

Lemma excess_rows_ignored_witness :
  getPixel (m4Canvas (gradient 640 2000)
              (midEndOf (gradient 640 2000) 800)) 3 100
  = getPixel (m4Canvas
                (mkCanvas 640 2000
                   (fun x y => if y <? 1280 then 1 + x + 1000 * y else 0))
                (midEndOf
                   (mkCanvas 640 2000
                      (fun x y =>
                         if y <? 1280 then 1 + x + 1000 * y else 0)) 800))
      3 100.
Proof.
  apply (excess_rows_ignored (gradient 640 2000)
           (mkCanvas 640 2000
              (fun x y => if y <? 1280 then 1 + x + 1000 * y else 0)) 800).
  - reflexivity.
  - intros px py Hrow. unfold getPixel, inside. simpl in *.
    destruct (Z.ltb_spec py 1280); [reflexivity | lia].
Defined.

Ltac list_zip_documented :=
  split; [reflexivity | intros zip n b _; reflexivity].

Lemma archive_lists_result_witness :
  addsOrUpdates plainZip /\
  exists l (zip : @Zip Canvas plainZip),
    processSlices (P := idealPlatform) (gradient 640 900) 800 = Resolved l /\
    createZip (P := idealPlatform) (J := plainZip) l
    = @generateAsync Canvas plainZip zip /\
    map fst (@zipEntries Canvas plainZip zip)
    = ["m_1.png"; "m_2.png"; "m_3.png"; "m_4.png"; "m_5.png";
       "m_6.png"]%string.
Proof.
  split; [list_zip_documented|].
  eexists.
  destruct (archive_lists_result (P := idealPlatform) (J := plainZip)
              (gradient 640 900) 800 _ ltac:(list_zip_documented) eq_refl)
    as (zip & Hzip & Hentries).
  exists zip. split; [reflexivity|]. split; [exact Hzip|].
  refine (eq_trans (f_equal (map fst) Hentries) _). reflexivity.
Defined.

Lemma archive_last_wins_witness :
  addsOrUpdates plainZip /\
  exists (zip : @Zip Canvas plainZip),
    createZip (P := idealPlatform) (J := plainZip)
      [mkSlice (P := idealPlatform) "a" "a.png" (gradient 1 1) "u" 1 1 0 0;
       mkSlice (P := idealPlatform) "a" "a.png" (gradient 2 2) "v" 2 2 0 0]
    = @generateAsync Canvas plainZip zip /\
    NoDup (map fst (@zipEntries Canvas plainZip zip)).
Proof.
  split; [list_zip_documented|].
  destruct (archive_last_wins (P := idealPlatform) (J := plainZip)
              [mkSlice (P := idealPlatform) "a" "a.png" (gradient 1 1) "u"
                       1 1 0 0;
               mkSlice (P := idealPlatform) "a" "a.png" (gradient 2 2) "v"
                       2 2 0 0])
    as (zip & Hzip & Hnd & _).
  - list_zip_documented.
  - repeat constructor.
  - exists zip. split; assumption.
Defined.

Lemma app_state_settled_witness :
  App.isProcessing
    (App.run (P := idealPlatform) [pick (photo 1280 2000); press]) = false.
Proof.
  apply (app_state_settled (P := idealPlatform)
           [pick (photo 1280 2000); press]).
Defined.

Lemma failed_load_keeps_canvas_witness :
  (exists msg, loadImage (Br := plainBrowser) (photo 1 1) = Rejected msg) /\
  App.canvas
    (App.handleFileChange (P := idealPlatform) (Br := plainBrowser)
       (Some (photo 1 1 : @File plainBrowser))
       (App.run [pick (photo 1280 2000)]))
  = App.canvas
      (App.run (P := idealPlatform) (Br := plainBrowser)
         [pick (photo 1280 2000)]).
Proof.
  split; [eexists; reflexivity|].
  apply (failed_load_keeps_canvas (P := idealPlatform) (Br := plainBrowser)
           (App.run [pick (photo 1280 2000)]) (photo 1 1)).
  left. eexists. reflexivity.
Defined.

Lemma app_slices_use_800_witness :
  exists r c,
    In r (App.slices
            (App.run (P := idealPlatform) [pick (photo 640 900); press])) /\
    id r = "m_3"%string /\
    App.canvas (App.run (P := idealPlatform) [pick (photo 640 900); press])
    = Some c /\
    height r = Z.min 800 (cheight c) - 640.
Proof.
  assert (Hshown :
    exists r,
      In r (App.slices
              (App.run (P := idealPlatform) [pick (photo 640 900); press])) /\
      id r = "m_3"%string).
  { vm_compute. eexists.
    split; [right; right; left; reflexivity | reflexivity]. }
  destruct Hshown as (r & Hin & Hid).
  destruct (app_slices_use_800 (P := idealPlatform)
              [pick (photo 640 900); press] r Hin) as (c & Hc & Hm3 & _).
  exists r, c. split; [exact Hin|]. split; [exact Hid|]. split; [exact Hc|].
  apply Hm3, Hid.
Defined.

Lemma unusable_source_rejects_witness :
  processSlices (P := idealPlatform) (gradient 0 900) 800
  = Rejected "InvalidStateError".
Proof.
  apply (unusable_source_rejects (P := idealPlatform) (gradient 0 900) 800
           eq_refl).
  right. split; [reflexivity|]. split; [simpl; lia | reflexivity].
Defined.
